(** * lib-editor: the repository synchronisation subsystem

    A shallow embedding of [src/lib/git.ts] (the git wrapper: [git],
    [gitSafe], [GitError], [status], [pull], [push]), of
    [src/routes/sync.ts] ([handleSync]), of [src/routes/status.ts] and of
    the startup sequence and the dispatcher of [src/server.ts], together
    with the fragment of the JavaScript string library these files rely
    on.

    The external [git] binary is not part of the program: it is an oracle
    [spawn] that maps an argument vector and the current state of the
    outside world (working tree, remote, network) to the three things the
    code reads back from the child process, and to a new world. *)

From Stdlib Require Import Decimal DecimalFacts DecimalPos DecimalN.
From Stdlib Require Import Ascii String.
From Stdlib Require Import ZArith NArith List Bool Lia.
Import ListNotations.

Set Implicit Arguments.
Set Warnings "-register-all".

(* ------------------------------------------------------------------------- *)
(** ** JavaScript strings *)

Module JS.

(** A JavaScript string is a sequence of UTF-16 code units. *)
Definition jsstring := list N.

(** A literal of the source, written with characters below U+0100. *)
Definition lit (s : string) : jsstring :=
  map N_of_ascii (list_ascii_of_string s).

Fixpoint eqb (a b : jsstring) : bool :=
  match a, b with
  | [], [] => true
  | x :: a', y :: b' => N.eqb x y && eqb a' b'
  | _, _ => false
  end.

(** [WhiteSpace] and [LineTerminator] of ECMAScript: the code units that
    [String.prototype.trim] strips, that the regular expression class [\s]
    matches and that [parseInt] skips. *)
Definition isWhiteSpace (c : N) : bool :=
  ((c =? 0x09) || (c =? 0x0A) || (c =? 0x0B) || (c =? 0x0C) || (c =? 0x0D)
   || (c =? 0x20) || (c =? 0xA0) || (c =? 0x1680)
   || ((0x2000 <=? c) && (c <=? 0x200A))
   || (c =? 0x2028) || (c =? 0x2029) || (c =? 0x202F) || (c =? 0x205F)
   || (c =? 0x3000) || (c =? 0xFEFF))%N.

Fixpoint trimStart (s : jsstring) : jsstring :=
  match s with
  | [] => []
  | c :: s' => if isWhiteSpace c then trimStart s' else s
  end.

Definition trimEnd (s : jsstring) : jsstring :=
  rev (trimStart (rev s)).

(** [s.trim()] *)
Definition trim (s : jsstring) : jsstring :=
  trimEnd (trimStart s).

(** [s.slice(n)] for [n >= 0] *)
Definition slice (n : nat) (s : jsstring) : jsstring :=
  skipn n s.

(** [s.split(sep)] for a separator of one code unit, as in [split("\n")]:
    an empty string gives one empty part. *)
Fixpoint split (sep : N) (s : jsstring) : list jsstring :=
  match s with
  | [] => [[]]
  | c :: s' =>
      if (c =? sep)%N then [] :: split sep s'
      else match split sep s' with
           | p :: ps => (c :: p) :: ps
           | [] => [[c]]
           end
  end.

(** [s.split(/\s+/)]: every maximal run of white space is one separator;
    [inRun] tells that the code unit before [s] belonged to such a run.
    A leading or trailing run leaves an empty first or last part. *)
Fixpoint split_ws_from (inRun : bool) (s : jsstring) : list jsstring :=
  match s with
  | [] => [[]]
  | c :: s' =>
      if isWhiteSpace c then
        if inRun then split_ws_from true s'
        else [] :: split_ws_from true s'
      else match split_ws_from false s' with
           | p :: ps => (c :: p) :: ps
           | [] => [[c]]
           end
  end.

Definition split_ws (s : jsstring) : list jsstring :=
  split_ws_from false s.

(** [Boolean(s)] on a string: the empty string is the only falsy one. *)
Definition truthy (s : jsstring) : bool :=
  match s with [] => false | _ :: _ => true end.

(** [a || b] on strings. *)
Definition or_else (a b : jsstring) : jsstring :=
  if truthy a then a else b.

Fixpoint startsWith (p s : jsstring) : bool :=
  match p, s with
  | [], _ => true
  | x :: p', y :: s' => N.eqb x y && startsWith p' s'
  | _ :: _, [] => false
  end.

(** [s.includes(needle)] *)
Fixpoint includes (s needle : jsstring) : bool :=
  match s with
  | [] => startsWith needle []
  | _ :: s' => startsWith needle s || includes s' needle
  end.

(** The numbers the code computes are what [parseInt] returns: [NaN] or
    an integer.  Integers are kept exact; a double is exact up to 2^53,
    which bounds the statements below that speak about values. *)
Inductive number : Type :=
| NaN
| Num (z : Z).

Definition digit (c : N) : option Z :=
  if ((0x30 <=? c) && (c <=? 0x39))%N then Some (Z.of_N c - 48)%Z else None.

(** The longest prefix of decimal digits, read left to right; [acc] is
    [None] until the first digit has been seen. *)
Fixpoint digits (acc : option Z) (s : jsstring) : option Z :=
  match s with
  | [] => acc
  | c :: s' =>
      match digit c with
      | Some d =>
          digits (Some (10 * match acc with Some a => a | None => 0 end + d)%Z) s'
      | None => acc
      end
  end.

(** [parseInt(s, 10)] *)
Definition parseInt (s : jsstring) : number :=
  let s1 := trimStart s in
  let '(sign, s2) :=
    match s1 with
    | 0x2D%N :: r => ((-1)%Z, r)
    | 0x2B%N :: r => (1%Z, r)
    | _ => (1%Z, s1)
    end in
  match digits None s2 with
  | None => NaN
  | Some v => Num (sign * v)
  end.

(** [xs[i] ?? d] *)
Definition nth_or (i : nat) (xs : list jsstring) (d : jsstring) : jsstring :=
  match nth_error xs i with
  | Some x => x
  | None => d
  end.

(** A value produced by [JSON.parse]. Object members are kept in source
    order; a later duplicate key wins. *)
Inductive json : Type :=
| JNull
| JBool (b : bool)
| JNum (text : jsstring)
| JStr (s : jsstring)
| JArr (items : list json)
| JObj (members : list (jsstring * json)).

Fixpoint member (k : jsstring) (ms : list (jsstring * json)) : option json :=
  match ms with
  | [] => None
  | (k', v) :: ms' =>
      match member k ms' with
      | Some v' => Some v'
      | None => if eqb k k' then Some v else None
      end
  end.

End JS.

Import JS.

(* ------------------------------------------------------------------------- *)
(** ** src/lib/db.ts: the tracked data files *)

(** [path.join] of two plain segments, POSIX separator. *)
Definition join (a b : jsstring) : jsstring := a ++ lit "/" ++ b.

Definition BOOKS_REL_PATH : jsstring := join (lit "data") (lit "books.json").
Definition CONFIG_REL_PATH : jsstring := join (lit "data") (lit "config.json").

Definition booksPath : jsstring := BOOKS_REL_PATH.
Definition configPath : jsstring := CONFIG_REL_PATH.

(* ------------------------------------------------------------------------- *)
(** ** src/lib/git.ts: types *)

Record SyncStatus : Type := {
  dirty : bool;
  ahead : number;
  behind : number;
  changedFiles : list jsstring
}.

Record PullResult : Type := {
  pull_success : bool;
  pull_error : option jsstring
}.

Record PushResult : Type := {
  push_success : bool;
  push_sha : option jsstring;
  push_error : option jsstring
}.

(** What [Bun.spawn] hands back once the three promises are resolved. *)
Record ProcOut : Type := {
  proc_stdout : jsstring;
  proc_stderr : jsstring;
  proc_exited : Z
}.

(** The result of [gitSafe]. *)
Record CommandOutcome : Type := {
  ok : bool;
  stdout : jsstring;
  stderr : jsstring
}.

(** Exceptions. [GitError] carries the four fields of the class; its
    message is a function of them. [SyntaxError] and [TypeError] are raised
    by the runtime in [handleSync]. *)
Inductive exn : Type :=
| GitError (args : list jsstring) (exitCode : Z) (out err : jsstring)
| SyntaxError
| TypeError.

Inductive res (A : Type) : Type :=
| Ok (a : A)
| Throw (e : exn).

Arguments Ok {A} a.
Arguments Throw {A} e.

(* ------------------------------------------------------------------------- *)
(** ** src/routes/sync.ts: requests and responses *)

(** The parts of a [Request] the handler reads: its method, the path name
    of [new URL(req.url)], and what [req.json()] resolves to ([None] when
    the body is not JSON, in which case the promise rejects). *)
Record Request : Type := {
  method : jsstring;
  pathname : jsstring;
  json_body : option json
}.

(** The payload of a [Response]: one of the three results serialised by
    [Response.json], or a plain text. *)
Inductive payload : Type :=
| OfStatus (s : SyncStatus)
| OfPull (r : PullResult)
| OfPush (r : PushResult)
| OfText (t : jsstring).

Record Response : Type := {
  resp_body : payload;
  resp_status : Z
}.

(* ------------------------------------------------------------------------- *)
(** ** The process runner and the three public operations *)

Section Git.

Variable World : Type.

(** [spawn argv w]: run the process [argv] in the repository clone. *)
Variable spawn : list jsstring -> World -> ProcOut * World.

(** The state threaded through an operation: the outside world and the
    argument vectors of the processes spawned so far, oldest first. *)
Record St : Type := {
  world : World;
  spawned : list (list jsstring)
}.

Definition M (A : Type) : Type := St -> res A * St.

Definition ret {A} (a : A) : M A := fun st => (Ok a, st).

Definition throw {A} (e : exn) : M A := fun st => (Throw e, st).

Definition bind {A B} (m : M A) (k : A -> M B) : M B :=
  fun st =>
    match m st with
    | (Ok a, st') => k a st'
    | (Throw e, st') => (Throw e, st')
    end.

Notation "x <- m ;; k" := (bind m (fun x => k))
  (at level 61, m at next level, right associativity).

(** [Bun.spawn(["git", ...args], {cwd: SITE_REPO_PATH, ...})] followed by
    the [Promise.all] that collects both streams and the exit code. The
    process is taken to start and to run to its end: an exception of
    [Bun.spawn] itself (no git binary, no working directory) has no
    counterpart here, and what is proved below is about the runs in which
    every spawned process gives its three results. *)
Definition run (args : list jsstring) : M ProcOut :=
  fun st =>
    let argv := lit "git" :: args in
    let '(o, w') := spawn argv (world st) in
    (Ok o, {| world := w'; spawned := spawned st ++ [argv] |}).

Definition git (args : list jsstring) : M jsstring :=
  o <- run args ;;
  if negb (proc_exited o =? 0)%Z then
    throw (GitError args (proc_exited o)
             (trim (proc_stdout o)) (trim (proc_stderr o)))
  else ret (trim (proc_stdout o)).

Definition gitSafe (args : list jsstring) : M CommandOutcome :=
  o <- run args ;;
  ret {| ok := (proc_exited o =? 0)%Z;
         stdout := trim (proc_stdout o);
         stderr := trim (proc_stderr o) |}.

Definition status : M SyncStatus :=
  let dataFiles := [booksPath; configPath] in
  porcelain <- git ([lit "status"; lit "--porcelain"] ++ dataFiles) ;;
  let changedFiles :=
    map (fun line => trim (slice 3 line))
        (filter truthy (split 0x0A porcelain)) in
  revResult <- gitSafe [lit "rev-list"; lit "--left-right"; lit "--count";
                        lit "HEAD...@{u}"] ;;
  let '(ahead, behind) :=
    if ok revResult then
      let parts := split_ws (stdout revResult) in
      (parseInt (nth_or 0 parts (lit "0")),
       parseInt (nth_or 1 parts (lit "0")))
    else (Num 0, Num 0) in
  ret {| dirty := (0 <? length changedFiles)%nat;
         ahead := ahead;
         behind := behind;
         changedFiles := changedFiles |}.

Definition pull : M PullResult :=
  fetchResult <- gitSafe [lit "fetch"] ;;
  if negb (ok fetchResult) then
    ret {| pull_success := false;
           pull_error := Some (lit "git fetch failed: "
                                 ++ or_else (stderr fetchResult)
                                            (stdout fetchResult)) |}
  else
    pullResult <- gitSafe [lit "pull"; lit "--ff-only"] ;;
    if negb (ok pullResult) then
      ret {| pull_success := false;
             pull_error := Some (lit "git pull --ff-only failed: "
                                   ++ or_else (stderr pullResult)
                                              (stdout pullResult)) |}
    else
      ret {| pull_success := true; pull_error := None |}.

Definition push (commitMessage : jsstring) : M PushResult :=
  let dataFiles := [booksPath; configPath] in
  _ <- git ([lit "add"] ++ dataFiles) ;;
  commitResult <- gitSafe [lit "commit"; lit "-m"; commitMessage] ;;
  if negb (ok commitResult)
     && (negb (includes (stdout commitResult) (lit "nothing to commit"))
         && negb (includes (stderr commitResult) (lit "nothing to commit")))
  then
    ret {| push_success := false;
           push_sha := None;
           push_error := Some (lit "git commit failed: "
                                 ++ or_else (stderr commitResult)
                                            (stdout commitResult)) |}
  else
    pushResult <- gitSafe [lit "push"; lit "--force-with-lease"] ;;
    if negb (ok pushResult) then
      ret {| push_success := false;
             push_sha := None;
             push_error := Some (lit "git push failed: "
                                   ++ or_else (stderr pushResult)
                                              (stdout pushResult)) |}
    else
      sha <- git [lit "rev-parse"; lit "--short"; lit "HEAD"] ;;
      ret {| push_success := true; push_sha := Some sha; push_error := None |}.

(** [await req.json()] *)
Definition req_json (req : Request) : M json :=
  match json_body req with
  | Some v => ret v
  | None => throw SyntaxError
  end.

(** [body.message]: reading a property of [null] throws, a primitive or an
    array has no such property. *)
Definition get_message (body : json) : M (option json) :=
  match body with
  | JNull => throw TypeError
  | JObj ms => ret (member (lit "message") ms)
  | _ => ret None
  end.

(** [v?.trim()]: [undefined] and [null] short-circuit, a string is
    trimmed, anything else has no callable [trim]. *)
Definition opt_trim (v : option json) : M (option jsstring) :=
  match v with
  | None => ret None
  | Some JNull => ret None
  | Some (JStr s) => ret (Some (trim s))
  | Some _ => throw TypeError
  end.

Definition handleSync (req : Request) : M Response :=
  if eqb (method req) (lit "GET")
     && eqb (pathname req) (lit "/api/sync/status") then
    s <- status ;;
    ret {| resp_body := OfStatus s; resp_status := 200 |}
  else if eqb (method req) (lit "POST")
          && eqb (pathname req) (lit "/api/sync/pull") then
    result <- pull ;;
    ret {| resp_body := OfPull result;
           resp_status := if pull_success result then 200 else 409 |}
  else if eqb (method req) (lit "POST")
          && eqb (pathname req) (lit "/api/sync/push") then
    body <- req_json req ;;
    m <- get_message body ;;
    t <- opt_trim m ;;
    let message :=
      match t with
      | Some s => or_else s (lit "Update catalogue")
      | None => lit "Update catalogue"
      end in
    result <- push message ;;
    ret {| resp_body := OfPush result;
           resp_status := if push_success result then 200 else 409 |}
  else
    ret {| resp_body := OfText (lit "Not found"); resp_status := 404 |}.

End Git.

Arguments ret {World A} a _.
Arguments throw {World A} e _.

(* ------------------------------------------------------------------------- *)
(** ** A replayed world

    For concrete runs the outside world is a queue of process results,
    handed out one per spawned process in order. *)

Definition Script : Type := list ProcOut.

Definition replay (argv : list jsstring) (w : Script) : ProcOut * Script :=
  match w with
  | o :: w' => (o, w')
  | [] => ({| proc_stdout := []; proc_stderr := []; proc_exited := 0 |}, [])
  end.

Definition start (w : Script) : St Script := {| world := w; spawned := [] |}.

(** The line feed and the tab. *)
Definition LF : jsstring := [0x0A%N].
Definition TAB : jsstring := [0x09%N].

(** A process that exits with code 0 and prints [out]. *)
Definition exit0 (out : jsstring) : ProcOut :=
  {| proc_stdout := out; proc_stderr := []; proc_exited := 0 |}.

(** A process that exits with code [code]. *)
Definition failed (code : Z) (out err : jsstring) : ProcOut :=
  {| proc_stdout := out; proc_stderr := err; proc_exited := code |}.

(** The remote cannot be reached. *)
Definition offline : Script :=
  [failed 128 [] (lit "fatal: unable to access the remote" ++ LF)].

(** Local and remote history have diverged. *)
Definition diverged : Script :=
  [exit0 [];
   failed 128 [] (lit "fatal: Not possible to fast-forward, aborting." ++ LF)].

(** Nothing to commit, and the remote moved since the last fetch. *)
Definition clean_but_stale : Script :=
  [exit0 [];
   failed 1 (lit "On branch main" ++ LF
             ++ lit "nothing to commit, working tree clean" ++ LF) [];
   failed 1 [] (lit " ! [rejected] main -> main (stale info)" ++ LF)].

(** Nothing to commit, and the remote accepts the push. *)
Definition clean_in_sync : Script :=
  [exit0 [];
   failed 1 (lit "On branch main" ++ LF
             ++ lit "nothing to commit, working tree clean" ++ LF) [];
   {| proc_stdout := []; proc_stderr := lit "Everything up-to-date" ++ LF;
      proc_exited := 0 |};
   exit0 (lit "abc1234" ++ LF)].

(** The commit itself is refused. *)
Definition unsigned : Script :=
  [exit0 [];
   failed 128 [] (lit "error: gpg failed to sign the data" ++ LF)].

(** Staged edits, remote unchanged. *)
Definition edited : Script :=
  [exit0 [];
   exit0 (lit "[main abc1234] Update catalogue" ++ LF);
   exit0 [];
   exit0 (lit "abc1234" ++ LF)].

(** [data/books.json] modified in the working tree and not staged; two
    commits ahead of the upstream, none behind. *)
Definition one_modified : Script :=
  [exit0 (lit " M data/books.json" ++ LF);
   exit0 (lit "2" ++ TAB ++ lit "0" ++ LF)].

(** [data/books.json] staged, [data/config.json] untracked; no upstream. *)
Definition staged_no_upstream : Script :=
  [exit0 (lit "M  data/books.json" ++ LF ++ lit "?? data/config.json" ++ LF);
   failed 128 []
     (lit "fatal: no upstream configured for branch 'main'" ++ LF)].

(** The argument vectors the three operations hand to [Bun.spawn]. *)
Definition status_argv : list jsstring :=
  [lit "git"; lit "status"; lit "--porcelain";
   lit "data/books.json"; lit "data/config.json"].

Definition revlist_argv : list jsstring :=
  [lit "git"; lit "rev-list"; lit "--left-right"; lit "--count";
   lit "HEAD...@{u}"].

Definition fetch_argv : list jsstring := [lit "git"; lit "fetch"].

Definition pull_argv : list jsstring := [lit "git"; lit "pull"; lit "--ff-only"].

Definition add_argv : list jsstring :=
  [lit "git"; lit "add"; lit "data/books.json"; lit "data/config.json"].

Definition commit_argv (msg : jsstring) : list jsstring :=
  [lit "git"; lit "commit"; lit "-m"; msg].

Definition push_argv : list jsstring :=
  [lit "git"; lit "push"; lit "--force-with-lease"].

Definition revparse_argv : list jsstring :=
  [lit "git"; lit "rev-parse"; lit "--short"; lit "HEAD"].

(** The four commands of a complete [push], in the order of the source. *)
Definition publish_commands (msg : jsstring) : list (list jsstring) :=
  [add_argv; commit_argv msg; push_argv; revparse_argv].

(** The test of [push] on the outcome of the commit: it failed, and neither
    stream mentions "nothing to commit". *)
Definition commit_refused (o : ProcOut) : bool :=
  negb (proc_exited o =? 0)%Z
  && (negb (includes (trim (proc_stdout o)) (lit "nothing to commit"))
      && negb (includes (trim (proc_stderr o)) (lit "nothing to commit"))).

(** The state after [k] more processes have been spawned. *)
Definition after {World : Type} (st : St World) (w : World)
    (cmds : list (list jsstring)) : St World :=
  {| world := w; spawned := spawned st ++ cmds |}.

(** The text of a failed command that ends up in an [error] field:
    its trimmed standard error, or its trimmed standard output when the
    former is empty. *)
Definition diagnostic (o : ProcOut) : jsstring :=
  or_else (trim (proc_stderr o)) (trim (proc_stdout o)).

(** The second element of an argument vector is the git subcommand [name]. *)
Definition is_subcommand (name : jsstring) (argv : list jsstring) : bool :=
  match argv with
  | _ :: n :: _ => eqb n name
  | _ => false
  end.

(** Requests for the concrete runs. *)
Definition push_request (body : json) : Request :=
  {| method := lit "POST";
     pathname := lit "/api/sync/push";
     json_body := Some body |}.

Definition no_message : json := JObj [].

Definition blank_message : json :=
  JObj [(lit "message", JStr (lit "  " ++ TAB ++ LF))].

Definition padded_message : json :=
  JObj [(lit "message", JStr (lit "  Fix typo in title " ++ LF))].

Definition delete_request : Request :=
  {| method := lit "DELETE";
     pathname := lit "/api/sync/push";
     json_body := None |}.

(** What [status] makes of the standard output of the porcelain command:
    the output is trimmed by [git], cut into lines, empty lines are dropped
    and each remaining line loses its first three code units and is
    trimmed. *)
Definition changed_paths (raw : jsstring) : list jsstring :=
  map (fun line => trim (slice 3 line))
      (filter truthy (split 0x0A (trim raw))).

(** What [status] makes of the outcome of the commit count. *)
Definition counts (o : ProcOut) : number * number :=
  if (proc_exited o =? 0)%Z then
    let parts := split_ws (trim (proc_stdout o)) in
    (parseInt (nth_or 0 parts (lit "0")), parseInt (nth_or 1 parts (lit "0")))
  else (Num 0, Num 0).

(** The decimal numeral of a natural number, as git prints a count. *)
Fixpoint uint_chars (d : uint) : jsstring :=
  match d with
  | Nil => []
  | D0 d' => 0x30%N :: uint_chars d'
  | D1 d' => 0x31%N :: uint_chars d'
  | D2 d' => 0x32%N :: uint_chars d'
  | D3 d' => 0x33%N :: uint_chars d'
  | D4 d' => 0x34%N :: uint_chars d'
  | D5 d' => 0x35%N :: uint_chars d'
  | D6 d' => 0x36%N :: uint_chars d'
  | D7 d' => 0x37%N :: uint_chars d'
  | D8 d' => 0x38%N :: uint_chars d'
  | D9 d' => 0x39%N :: uint_chars d'
  end.

Definition decimal (n : N) : jsstring := uint_chars (N.to_uint n).

(** Every code unit of [s] is white space. *)
Definition blank (s : jsstring) : Prop :=
  Forall (fun c => isWhiteSpace c = true) s.

(** No code unit of [s] is white space. *)
Definition solid (s : jsstring) : Prop :=
  Forall (fun c => isWhiteSpace c = false) s.

(** More worlds and requests for the concrete runs. *)

(** Nothing changed, in step with the upstream. *)
Definition clean_tree : Script :=
  [exit0 []; exit0 (lit "0" ++ TAB ++ lit "0" ++ LF)].

(** The configured path is not a repository. *)
Definition not_a_repository : Script :=
  [failed 128 [] (lit "fatal: not a git repository" ++ LF)].

(** The commit count prints a single number. *)
Definition single_count : Script :=
  [exit0 []; exit0 (lit "7" ++ LF)].

(** A tracked data file is missing from the checkout. *)
Definition broken_checkout : Script :=
  [failed 128 []
     (lit "fatal: pathspec 'data/books.json' did not match any files" ++ LF)].

Definition pull_request : Request :=
  {| method := lit "POST";
     pathname := lit "/api/sync/pull";
     json_body := None |}.

Definition status_request : Request :=
  {| method := lit "GET";
     pathname := lit "/api/sync/status";
     json_body := None |}.


Definition numeric_message : json :=
  JObj [(lit "message", JNum (lit "42"))].

(* ------------------------------------------------------------------------- *)
(** ** src/lib/git.ts: the message of a [GitError] *)

(** [xs.join(sep)] *)
Fixpoint join_with (sep : jsstring) (xs : list jsstring) : jsstring :=
  match xs with
  | [] => []
  | [x] => x
  | x :: xs' => x ++ sep ++ join_with sep xs'
  end.

(** The text of an integer in a template literal. *)
Definition number_to_string (z : Z) : jsstring :=
  if (z <? 0)%Z then lit "-" ++ decimal (Z.abs_N z) else decimal (Z.to_N z).

(** The argument of [super(...)] in the constructor of [GitError]; [out]
    and [err] are the streams as the constructor receives them. *)
Definition GitError_message (args : list jsstring) (exitCode : Z)
    (out err : jsstring) : jsstring :=
  lit "git " ++ join_with (lit " ") args ++ lit " exited "
    ++ number_to_string exitCode ++ lit ": " ++ or_else err out.

(* ------------------------------------------------------------------------- *)
(** ** The porcelain format

    What [git status --porcelain] prints for one path: a two-letter status
    code, a space, the path; every line ends with a line feed. *)

Record Entry : Type := {
  index_code : N;
  worktree_code : N;
  entry_path : jsstring
}.

Definition entry_line (e : Entry) : jsstring :=
  [index_code e; worktree_code e; 0x20%N] ++ entry_path e.

Definition porcelain (es : list Entry) : jsstring :=
  concat (map (fun e => entry_line e ++ LF) es).

(** The two letters are not line feeds, and the path is a non-empty text
    without white space (git would quote any other). *)
Definition plain (e : Entry) : Prop :=
  index_code e <> 0x0A%N /\ worktree_code e <> 0x0A%N
  /\ solid (entry_path e) /\ entry_path e <> [].

(** A text has white space neither at its start nor at its end. *)
Definition tight (s : jsstring) : Prop :=
  (forall c r, s = c :: r -> isWhiteSpace c = false)
  /\ (forall i c, s = i ++ [c] -> isWhiteSpace c = false).

(** A text that ends with a non-empty part without white space. *)
Definition ends_solid (l : jsstring) : Prop :=
  exists front p, l = front ++ p /\ solid p /\ p <> [].

(* ------------------------------------------------------------------------- *)
(** ** src/routes/status.ts, src/routes/quit.ts, src/server.ts

    The server of the version that has the status and quit routes. What a
    handler returns is a [Reply]; [handleBooks], [handleConfig] and the
    static file handler belong to the record store and to a library and
    are left open: the dispatcher is stated for any three handlers, which
    may change the world and may throw. Output to the console is not
    modelled. *)

(** [PullResult & { checked: boolean }] *)
Record StartupStatus : Type := {
  checked : bool;
  startup_success : bool;
  startup_error : option jsstring
}.

Inductive content : Type :=
| SyncContent (p : payload)
| StartupContent (s : StartupStatus)
| ErrorContent (message : jsstring)
| TextContent (t : jsstring)
| JsonContent (v : json)
| FileContent (bytes : list N).

Record Reply : Type := {
  reply_body : content;
  reply_status : Z
}.

(** A thrown value: an [Error] with its message, or anything else. *)
Inductive thrown : Type :=
| AnError (message : jsstring)
| NotAnError.

(** A callback registered with [setTimeout] that ends the process. *)
Record Timer : Type := {
  delay : Z;
  exit_code : Z
}.

(** The [Response] of [handleSync], passed on as it is. *)
Definition of_response (r : Response) : Reply :=
  {| reply_body := SyncContent (resp_body r); reply_status := resp_status r |}.

Section Server.

Variable World : Type.
Variable spawn : list jsstring -> World -> ProcOut * World.

(** The message the engine gives to a [SyntaxError] or a [TypeError]. *)
Variable engine_message : exn -> jsstring.

Variable handleBooks : Request -> World -> (Reply + thrown) * World.
Variable handleConfig : Request -> World -> (Reply + thrown) * World.
Variable staticHandler : Request -> World -> (Reply + thrown) * World.

(** The state of the process: the repository clone with the processes
    spawned on it, the module variable [startupStatus] and the pending
    timers. *)
Record Server : Type := {
  repo : St World;
  startupStatus : StartupStatus;
  timers : list Timer
}.

(** The state a module starts in. *)
Definition boot (st : St World) : Server :=
  {| repo := st;
     startupStatus := {| checked := false;
                         startup_success := false;
                         startup_error := None |};
     timers := [] |}.

(** [err.message] of an exception of the model. *)
Definition message_of (e : exn) : jsstring :=
  match e with
  | GitError args exitCode out err => GitError_message args exitCode out err
  | _ => engine_message e
  end.


Definition handleStatus (req : Request) (sv : Server) : Reply :=
  if eqb (method req) (lit "GET")
     && eqb (pathname req) (lit "/api/status") then
    {| reply_body := StartupContent (startupStatus sv); reply_status := 200 |}
  else
    {| reply_body := TextContent (lit "Not found"); reply_status := 404 |}.

Definition handleQuit (req : Request) (sv : Server) : Reply * Server :=
  if eqb (method req) (lit "POST")
     && eqb (pathname req) (lit "/api/quit") then
    ({| reply_body := TextContent (lit "Server is closing...");
        reply_status := 200 |},
     {| repo := repo sv;
        startupStatus := startupStatus sv;
        timers := timers sv ++ [{| delay := 1000; exit_code := 0 |}] |})
  else
    ({| reply_body := TextContent (lit "Not found"); reply_status := 404 |},
     sv).

Definition apiError (err : thrown) : Reply :=
  let message :=
    match err with
    | AnError m => m
    | NotAnError => lit "Internal server error"
    end in
  {| reply_body := ErrorContent message; reply_status := 500 |}.

(** A handler of the record store or of the library, run on the world of
    the clone. *)
Definition foreign (h : World -> (Reply + thrown) * World) (sv : Server)
    : (Reply + thrown) * Server :=
  let '(r, w') := h (world (repo sv)) in
  (r, {| repo := {| world := w'; spawned := spawned (repo sv) |};
         startupStatus := startupStatus sv;
         timers := timers sv |}).

(** [promise.catch(apiError)] *)
Definition catch_apiError (x : (Reply + thrown) * Server)
    : (Reply + thrown) * Server :=
  match x with
  | (inl r, sv) => (inl r, sv)
  | (inr err, sv) => (inl (apiError err), sv)
  end.

(** [handleSync(req)] on the clone of the server. *)
Definition sync (req : Request) (sv : Server) : (Reply + thrown) * Server :=
  let '(r, st') := handleSync spawn req (repo sv) in
  (match r with
   | Ok resp => inl (of_response resp)
   | Throw e => inr (AnError (message_of e))
   end,
   {| repo := st'; startupStatus := startupStatus sv; timers := timers sv |}).


(** The [fetch] callback of [Bun.serve]. *)
Definition fetch (req : Request) (sv : Server) : (Reply + thrown) * Server :=
  if eqb (pathname req) (lit "/api/status") then
    (inl (handleStatus req sv), sv)
  else if eqb (pathname req) (lit "/api/quit") then
    let '(r, sv') := handleQuit req sv in (inl r, sv')
  else if startsWith (lit "/api/books") (pathname req) then
    catch_apiError (foreign (handleBooks req) sv)
  else if eqb (pathname req) (lit "/api/config") then
    catch_apiError (foreign (handleConfig req) sv)
  else if startsWith (lit "/api/sync") (pathname req) then
    catch_apiError (sync req sv)
  else
    foreign (staticHandler req) sv.

End Server.

(** The double quote, which a string literal here does not hold. *)
Definition QUOTE : jsstring := [0x22%N].

(** What [git commit] prints, before its last line feed, when nothing is
    staged and the clone holds an untracked file. *)
Definition nothing_added : jsstring :=
  lit "On branch main" ++ LF
  ++ lit "Your branch is up to date with 'origin/main'." ++ LF ++ LF
  ++ lit "Untracked files:" ++ LF
  ++ lit "  (use " ++ QUOTE ++ lit "git add <file>..." ++ QUOTE
  ++ lit " to include in what will be committed)" ++ LF
  ++ TAB ++ lit "notes.txt" ++ LF ++ LF
  ++ lit "nothing added to commit but untracked files present (use "
  ++ QUOTE ++ lit "git add" ++ QUOTE ++ lit " to track)".

(** No change to the two data files, an untracked file beside them, and a
    remote that would accept a push. *)
Definition clean_but_untracked : Script :=
  [exit0 [];
   failed 1 (nothing_added ++ LF) [];
   {| proc_stdout := []; proc_stderr := lit "Everything up-to-date" ++ LF;
      proc_exited := 0 |};
   exit0 (lit "abc1234" ++ LF)].

(** [t] is [s] without the white space around it: [t] has white space at
    neither end and [s] is [t] between two blank texts. *)
Definition stripped (s t : jsstring) : Prop :=
  tight t /\ exists pre post, blank pre /\ blank post /\ s = pre ++ t ++ post.

(** An engine message and a handler for the concrete runs of the server,
    on routes that reach neither. *)
Definition some_engine_message (e : exn) : jsstring := lit "unexpected".

Definition idle_handler (req : Request) (w : Script)
    : (Reply + thrown) * Script :=
  (inr NotAnError, w).

(* ------------------------------------------------------------------------- *)
(** ** The process runner *)

Section Runner.

Variable World : Type.
Variable spawn : list jsstring -> World -> ProcOut * World.

Lemma after_after (st : St World) w w' c c' :
  after (after st w c) w' c' = after st w' (c ++ c').
Proof.
  unfold after; simpl. now rewrite app_assoc.
Qed.

Lemma run_spawn argv args (st : St World) o w' :
  argv = lit "git" :: args ->
  spawn argv (world st) = (o, w') ->
  run spawn args st = (Ok o, after st w' [argv]).
Proof.
  intros -> H. unfold run. now rewrite H.
Qed.

Lemma gitSafe_spawn argv args (st : St World) o w' :
  argv = lit "git" :: args ->
  spawn argv (world st) = (o, w') ->
  gitSafe spawn args st =
    (Ok {| ok := (proc_exited o =? 0)%Z;
           stdout := trim (proc_stdout o);
           stderr := trim (proc_stderr o) |},
     after st w' [argv]).
Proof.
  intros E H. unfold gitSafe, bind. now rewrite (@run_spawn argv args st o w' E H).
Qed.

Lemma git_spawn argv args (st : St World) o w' :
  argv = lit "git" :: args ->
  spawn argv (world st) = (o, w') ->
  git spawn args st =
    (if (proc_exited o =? 0)%Z then Ok (trim (proc_stdout o))
     else Throw (GitError args (proc_exited o)
                   (trim (proc_stdout o)) (trim (proc_stderr o))),
     after st w' [argv]).
Proof.
  intros E H. unfold git, bind. rewrite (@run_spawn argv args st o w' E H).
  now destruct (proc_exited o =? 0)%Z.
Qed.

(** [pull], step by step. *)
Lemma pull_cases (st : St World) o1 w1 o2 w2 :
  spawn fetch_argv (world st) = (o1, w1) ->
  spawn pull_argv w1 = (o2, w2) ->
  pull spawn st =
    if negb (proc_exited o1 =? 0)%Z then
      (Ok {| pull_success := false;
             pull_error := Some (lit "git fetch failed: " ++ diagnostic o1) |},
       after st w1 [fetch_argv])
    else if negb (proc_exited o2 =? 0)%Z then
      (Ok {| pull_success := false;
             pull_error :=
               Some (lit "git pull --ff-only failed: " ++ diagnostic o2) |},
       after st w2 [fetch_argv; pull_argv])
    else
      (Ok {| pull_success := true; pull_error := None |},
       after st w2 [fetch_argv; pull_argv]).
Proof.
  intros H1 H2. unfold pull, bind.
  rewrite (@gitSafe_spawn fetch_argv _ st o1 w1 eq_refl H1).
  cbn [ok stdout stderr].
  destruct (proc_exited o1 =? 0)%Z; cbn [negb]; [|reflexivity].
  rewrite (@gitSafe_spawn pull_argv _ (after st w1 [fetch_argv]) o2 w2 eq_refl H2).
  cbn [ok stdout stderr]. rewrite after_after; cbn [app].
  now destruct (proc_exited o2 =? 0)%Z.
Qed.

(** [push], step by step. *)
Lemma push_cases (st : St World) msg o1 w1 o2 w2 o3 w3 o4 w4 :
  spawn add_argv (world st) = (o1, w1) ->
  spawn (commit_argv msg) w1 = (o2, w2) ->
  spawn push_argv w2 = (o3, w3) ->
  spawn revparse_argv w3 = (o4, w4) ->
  push spawn msg st =
    if negb (proc_exited o1 =? 0)%Z then
      (Throw (GitError (tl add_argv) (proc_exited o1)
                (trim (proc_stdout o1)) (trim (proc_stderr o1))),
       after st w1 (firstn 1 (publish_commands msg)))
    else if commit_refused o2 then
      (Ok {| push_success := false; push_sha := None;
             push_error := Some (lit "git commit failed: " ++ diagnostic o2) |},
       after st w2 (firstn 2 (publish_commands msg)))
    else if negb (proc_exited o3 =? 0)%Z then
      (Ok {| push_success := false; push_sha := None;
             push_error := Some (lit "git push failed: " ++ diagnostic o3) |},
       after st w3 (firstn 3 (publish_commands msg)))
    else if negb (proc_exited o4 =? 0)%Z then
      (Throw (GitError (tl revparse_argv) (proc_exited o4)
                (trim (proc_stdout o4)) (trim (proc_stderr o4))),
       after st w4 (publish_commands msg))
    else
      (Ok {| push_success := true;
             push_sha := Some (trim (proc_stdout o4));
             push_error := None |},
       after st w4 (publish_commands msg)).
Proof.
  intros H1 H2 H3 H4. unfold push, bind. cbv zeta.
  rewrite (@git_spawn add_argv ([lit "add"] ++ [booksPath; configPath])
             st o1 w1 eq_refl H1).
  destruct (proc_exited o1 =? 0)%Z; cbn [negb]; [|reflexivity].
  rewrite (@gitSafe_spawn (commit_argv msg) _ (after st w1 [add_argv])
             o2 w2 eq_refl H2).
  cbn [ok stdout stderr]. fold (commit_refused o2). rewrite after_after; cbn [app].
  destruct (commit_refused o2); [reflexivity|].
  rewrite (@gitSafe_spawn push_argv _
             (after st w2 [add_argv; commit_argv msg]) o3 w3 eq_refl H3).
  cbn [ok stdout stderr]. rewrite after_after; cbn [app].
  destruct (proc_exited o3 =? 0)%Z; cbn [negb]; [|reflexivity].
  rewrite (@git_spawn revparse_argv _
             (after st w3 [add_argv; commit_argv msg; push_argv])
             o4 w4 eq_refl H4).
  rewrite after_after; cbn [app].
  now destruct (proc_exited o4 =? 0)%Z.
Qed.

(** [status], step by step. *)
Lemma status_cases (st : St World) o1 w1 o2 w2 :
  spawn status_argv (world st) = (o1, w1) ->
  spawn revlist_argv w1 = (o2, w2) ->
  status spawn st =
    if negb (proc_exited o1 =? 0)%Z then
      (Throw (GitError (tl status_argv) (proc_exited o1)
                (trim (proc_stdout o1)) (trim (proc_stderr o1))),
       after st w1 [status_argv])
    else
      (Ok {| dirty := (0 <? List.length (changed_paths (proc_stdout o1)))%nat;
             ahead := fst (counts o2);
             behind := snd (counts o2);
             changedFiles := changed_paths (proc_stdout o1) |},
       after st w2 [status_argv; revlist_argv]).
Proof.
  intros H1 H2. unfold status, bind. cbv zeta.
  rewrite (@git_spawn status_argv
             ([lit "status"; lit "--porcelain"] ++ [booksPath; configPath])
             st o1 w1 eq_refl H1).
  destruct (proc_exited o1 =? 0)%Z; cbn [negb]; [|reflexivity].
  rewrite (@gitSafe_spawn revlist_argv _ (after st w1 [status_argv])
             o2 w2 eq_refl H2).
  cbn [ok stdout stderr]. rewrite after_after; cbn [app].
  unfold counts, changed_paths.
  now destruct (proc_exited o2 =? 0)%Z.
Qed.

End Runner.

(* ------------------------------------------------------------------------- *)
(** ** Facts about the string operations *)

Module StringFacts.

Lemma trimStart_blank_app pre s :
  blank pre -> trimStart (pre ++ s) = trimStart s.
Proof.
  induction 1 as [|c pre Hc _ IH]; [reflexivity|].
  cbn [app trimStart]. now rewrite Hc.
Qed.

Lemma trimStart_solid_app s rest :
  solid s -> s <> [] -> trimStart (s ++ rest) = s ++ rest.
Proof.
  intros [|c s' Hc _] Hne; [congruence|].
  cbn [app trimStart]. now rewrite Hc.
Qed.

Lemma blank_rev s : blank s -> blank (List.rev s).
Proof. apply Forall_rev. Qed.

Lemma solid_rev s : solid s -> solid (List.rev s).
Proof. apply Forall_rev. Qed.

(** Trimming removes a blank frame around a text that starts and ends
    with a solid part. *)
Lemma trim_framed pre a mid b post :
  blank pre -> blank post ->
  solid a -> a <> [] -> solid b -> b <> [] ->
  trim (pre ++ (a ++ mid ++ b) ++ post) = a ++ mid ++ b.
Proof.
  intros Hpre Hpost Ha Na Hb Nb. unfold trim, trimEnd.
  rewrite (trimStart_blank_app _ Hpre), <- !app_assoc.
  rewrite (trimStart_solid_app _ Ha Na).
  rewrite !rev_app_distr, <- !app_assoc.
  rewrite (trimStart_blank_app _ (blank_rev Hpost)).
  rewrite (trimStart_solid_app _ (solid_rev Hb)).
  - now rewrite !rev_app_distr, !rev_involutive, <- !app_assoc.
  - intros E. apply Nb. now rewrite <- (rev_involutive b), E.
Qed.

Lemma trimStart_solid s : solid s -> trimStart s = s.
Proof.
  intros [|c s' Hc _]; [reflexivity|]. cbn [trimStart]. now rewrite Hc.
Qed.

Lemma trim_solid s : solid s -> trim s = s.
Proof.
  intros H. unfold trim, trimEnd.
  rewrite (trimStart_solid H), (trimStart_solid (solid_rev H)).
  apply rev_involutive.
Qed.

(** A text without line feed is a single line. *)
Lemma split_single s :
  Forall (fun c => c <> 0x0A%N) s -> split 0x0A s = [s].
Proof.
  induction 1 as [|c s Hc _ IH]; [reflexivity|].
  cbn [split]. apply N.eqb_neq in Hc. now rewrite Hc, IH.
Qed.

Lemma solid_no_line_feed s : solid s -> Forall (fun c => c <> 0x0A%N) s.
Proof.
  apply Forall_impl. intros c Hc ->. discriminate Hc.
Qed.

Lemma split_ws_from_not_nil b s : split_ws_from b s <> [].
Proof.
  revert b. induction s as [|c s IH]; intros b; cbn; [discriminate|].
  destruct (isWhiteSpace c).
  - destruct b; [apply IH|discriminate].
  - destruct (split_ws_from false s); discriminate.
Qed.

Lemma split_ws_from_solid_app b a rest :
  solid a -> a <> [] ->
  split_ws_from b (a ++ rest) =
    match split_ws_from false rest with
    | p :: ps => (a ++ p) :: ps
    | [] => [a]
    end.
Proof.
  intros Ha. revert b. induction Ha as [|c a Hc Ha IH]; intros b Hne;
    [congruence|].
  cbn [app split_ws_from]. rewrite Hc.
  destruct a as [|c' a'].
  - cbn [app]. pose proof (@split_ws_from_not_nil false rest) as N.
    now destruct (split_ws_from false rest).
  - rewrite (IH false) by discriminate.
    now destruct (split_ws_from false rest).
Qed.

Lemma split_ws_from_blank_app sep rest :
  blank sep -> split_ws_from true (sep ++ rest) = split_ws_from true rest.
Proof.
  induction 1 as [|c sep Hc _ IH]; [reflexivity|].
  cbn [app split_ws_from]. now rewrite Hc.
Qed.

(** Two solid parts separated by a run of white space are the two parts
    of the split. *)
Lemma split_ws_two a sep b :
  solid a -> a <> [] -> blank sep -> sep <> [] -> solid b -> b <> [] ->
  split_ws (a ++ sep ++ b) = [a; b].
Proof.
  intros Ha Na Hsep Nsep Hb Nb. unfold split_ws.
  rewrite (split_ws_from_solid_app false _ Ha Na).
  destruct Hsep as [|c sep Hc Hsep]; [congruence|].
  cbn [app split_ws_from]. rewrite Hc.
  rewrite (split_ws_from_blank_app _ Hsep).
  rewrite <- (app_nil_r b) at 1.
  rewrite (split_ws_from_solid_app true _ Hb Nb). cbn.
  now rewrite !app_nil_r.
Qed.

Lemma uint_chars_solid d : solid (uint_chars d).
Proof.
  induction d; cbn [uint_chars]; constructor; trivial.
Qed.

Lemma to_uint_not_nil n : N.to_uint n <> Nil.
Proof.
  destruct n; [discriminate|]. apply DecimalPos.Unsigned.to_uint_nonnil.
Qed.

Lemma uint_chars_not_nil d : d <> Nil -> uint_chars d <> [].
Proof.
  destruct d; [congruence|..]; discriminate.
Qed.

Lemma decimal_solid n : solid (decimal n).
Proof. apply uint_chars_solid. Qed.

Lemma decimal_not_nil n : decimal n <> [].
Proof. apply uint_chars_not_nil, to_uint_not_nil. Qed.

(** Reading the digits of [d] after those of [seen] (kept least
    significant first) gives the value of both together. *)
Lemma digits_uint d seen :
  digits (Some (Z.of_N (DecimalPos.Unsigned.of_lu seen))) (uint_chars d)
  = Some (Z.of_N (DecimalPos.Unsigned.of_lu (revapp d seen))).
Proof.
  revert seen. induction d; intros seen; [reflexivity|..];
    cbn [uint_chars digits revapp];
    match goal with
    | |- context [digit ?c] =>
        change (digit c) with (Some (Z.of_N c - 48)%Z)
    end;
    cbv beta iota; rewrite <- IHd; do 2 f_equal;
    cbn [DecimalPos.Unsigned.of_lu]; lia.
Qed.

Lemma digits_uint_start d :
  d <> Nil ->
  digits None (uint_chars d) = Some (Z.of_N (N.of_uint d)).
Proof.
  intros Hd. unfold N.of_uint.
  rewrite DecimalPos.Unsigned.of_uint_alt. unfold Decimal.rev.
  destruct d; [congruence|..];
    cbn [uint_chars digits revapp];
    match goal with
    | |- context [digit ?c] =>
        change (digit c) with (Some (Z.of_N c - 48)%Z)
    end;
    cbv beta iota; rewrite <- digits_uint; do 2 f_equal.
Qed.

(** [parseInt] reads a decimal numeral back. *)
Lemma parseInt_decimal n : parseInt (decimal n) = Num (Z.of_N n).
Proof.
  unfold parseInt.
  rewrite <- (app_nil_r (decimal n)).
  rewrite (trimStart_solid_app _ (decimal_solid n) (decimal_not_nil n)).
  rewrite app_nil_r.
  pose proof (digits_uint_start (to_uint_not_nil n)) as D.
  rewrite DecimalN.Unsigned.of_to in D. fold (decimal n) in D.
  assert (S : match decimal n with
              | 0x2D%N :: r => ((-1)%Z, r)
              | 0x2B%N :: r => (1%Z, r)
              | _ => (1%Z, decimal n)
              end = (1%Z, decimal n)).
  { unfold decimal in *. destruct (N.to_uint n); reflexivity. }
  rewrite S, D. f_equal. lia.
Qed.

Lemma eqb_eq a b : eqb a b = true <-> a = b.
Proof.
  revert b. induction a as [|x a IH]; intros [|y b]; cbn;
    try (split; [discriminate|congruence]); [tauto|].
  rewrite andb_true_iff, N.eqb_eq, IH. split.
  - now intros [-> ->].
  - now intros [= -> ->].
Qed.

Lemma trim_blank s : blank s -> trim s = [].
Proof.
  intros H. unfold trim, trimEnd.
  assert (E : trimStart s = []).
  { induction H as [|c s Hc _ IH]; [reflexivity|].
    cbn [trimStart]. now rewrite Hc. }
  now rewrite E.
Qed.

End StringFacts.

(* ------------------------------------------------------------------------- *)
(** ** [pull] *)

Section Pull.

Variable World : Type.
Variable spawn : list jsstring -> World -> ProcOut * World.

(** C3, as the code has it. [pull] spawns [git fetch] and, when that exits
    with 0, [git pull --ff-only]. A failed fetch gives [{success: false}]
    with the error "git fetch failed: " followed by the trimmed standard
    error of the command, or its trimmed standard output when the former
    is empty; a failed pull gives [{success: false}] with the error
    "git pull --ff-only failed: " followed by the same choice of text;
    otherwise the result is [{success: true}] with no error. *)
Theorem pull_reports_first_failure (st : St World) o1 w1 o2 w2 :
  spawn fetch_argv (world st) = (o1, w1) ->
  spawn pull_argv w1 = (o2, w2) ->
  (proc_exited o1 <> 0%Z ->
   pull spawn st =
     (Ok {| pull_success := false;
            pull_error := Some (lit "git fetch failed: " ++ diagnostic o1) |},
      after st w1 [fetch_argv]))
  /\ (proc_exited o1 = 0%Z -> proc_exited o2 <> 0%Z ->
      pull spawn st =
        (Ok {| pull_success := false;
               pull_error :=
                 Some (lit "git pull --ff-only failed: " ++ diagnostic o2) |},
         after st w2 [fetch_argv; pull_argv]))
  /\ (proc_exited o1 = 0%Z -> proc_exited o2 = 0%Z ->
      pull spawn st =
        (Ok {| pull_success := true; pull_error := None |},
         after st w2 [fetch_argv; pull_argv])).
Proof.
  intros H1 H2. rewrite (pull_cases spawn st H1 H2).
  repeat split.
  - intros E. apply Z.eqb_neq in E. now rewrite E.
  - intros E1 E2. apply Z.eqb_neq in E2. now rewrite E1, E2.
  - intros E1 E2. now rewrite E1, E2.
Qed.

End Pull.

Lemma pull_reports_first_failure_witness :
  replay fetch_argv (world (start diverged))
    = (exit0 [],
       [failed 128 []
          (lit "fatal: Not possible to fast-forward, aborting." ++ LF)])
  /\ replay pull_argv
       [failed 128 []
          (lit "fatal: Not possible to fast-forward, aborting." ++ LF)]
     = (failed 128 []
          (lit "fatal: Not possible to fast-forward, aborting." ++ LF), [])
  /\ pull replay (start diverged) =
       (Ok {| pull_success := false;
              pull_error :=
                Some (lit "git pull --ff-only failed: fatal: Not possible to fast-forward, aborting.") |},
        after (start diverged) [] [fetch_argv; pull_argv]).
Proof.
  split; [reflexivity|]. split; [reflexivity|].
  refine (proj1 (proj2 (@pull_reports_first_failure Script replay
            (start diverged) _ _ _ _ eq_refl eq_refl)) eq_refl _).
  discriminate.
Defined.

(** C3, as stated, fails on both failure paths: after a failed fetch the
    error does not start with "fetch failed: " but with
    "git fetch failed: ", and after a failed fast-forward pull it does not
    start with "fast-forward pull failed: " but with
    "git pull --ff-only failed: ". *)
Lemma pull_error_prefixes :
  (exists r st',
     pull replay (start offline) = (Ok r, st')
     /\ pull_success r = false
     /\ pull_error r
        <> Some (lit "fetch failed: "
                   ++ lit "fatal: unable to access the remote")
     /\ pull_error r
        = Some (lit "git fetch failed: fatal: unable to access the remote"))
  /\ (exists r st',
        pull replay (start diverged) = (Ok r, st')
        /\ pull_success r = false
        /\ pull_error r
           <> Some (lit "fast-forward pull failed: "
                      ++ lit "fatal: Not possible to fast-forward, aborting.")
        /\ pull_error r
           = Some (lit "git pull --ff-only failed: fatal: Not possible to fast-forward, aborting.")).
Proof.
  split; eexists; eexists; (split; [reflexivity|]);
    (split; [reflexivity|]); (split; [discriminate|reflexivity]).
Qed.

(* ------------------------------------------------------------------------- *)
(** ** [push] *)

Section Push.

Variable World : Type.
Variable spawn : list jsstring -> World -> ProcOut * World.

(** When staging succeeds and the commit exits with a non-zero code while
    its trimmed standard output or standard error contains
    "nothing to commit", [push] does not report the commit:
    it goes on to spawn [git push --force-with-lease]. The result then
    has [success == true] (with the short hash) when that push and the
    read of the hash both exit with 0, and is the push failure
    "git push failed: ..." when the push exits with a non-zero code. *)
Theorem push_nothing_to_commit_continues
    (st : St World) msg o1 w1 o2 w2 o3 w3 o4 w4 :
  spawn add_argv (world st) = (o1, w1) ->
  spawn (commit_argv msg) w1 = (o2, w2) ->
  spawn push_argv w2 = (o3, w3) ->
  spawn revparse_argv w3 = (o4, w4) ->
  proc_exited o1 = 0%Z ->
  proc_exited o2 <> 0%Z ->
  includes (trim (proc_stdout o2)) (lit "nothing to commit") = true
  \/ includes (trim (proc_stderr o2)) (lit "nothing to commit") = true ->
  (proc_exited o3 = 0%Z -> proc_exited o4 = 0%Z ->
   push spawn msg st =
     (Ok {| push_success := true;
            push_sha := Some (trim (proc_stdout o4));
            push_error := None |},
      after st w4 [add_argv; commit_argv msg; push_argv; revparse_argv]))
  /\ (proc_exited o3 <> 0%Z ->
      push spawn msg st =
        (Ok {| push_success := false;
               push_sha := None;
               push_error := Some (lit "git push failed: " ++ diagnostic o3) |},
         after st w3 [add_argv; commit_argv msg; push_argv])).
Proof.
  intros H1 H2 H3 H4 E1 E2 Hsig.
  rewrite (push_cases spawn st msg H1 H2 H3 H4).
  assert (R : commit_refused o2 = false).
  { unfold commit_refused.
    destruct Hsig as [-> | ->]; cbn [negb andb];
      now rewrite ?andb_false_r. }
  rewrite E1, R. cbn [Z.eqb negb]. split.
  - intros E3 E4. now rewrite E3, E4.
  - intros E3. apply Z.eqb_neq in E3. now rewrite E3.
Qed.

(** C4, as the code has it. The processes [push] spawns are, in order,
    an initial segment of: [git add] of the two tracked paths,
    [git commit -m msg], [git push --force-with-lease],
    [git rev-parse --short HEAD]; none of the four is a fetch or a pull.
    The segment ends at the first step that stops the operation: a failed
    staging is thrown as a [GitError] (no [PushResult]); a commit that
    fails without the "nothing to commit" signal returns the commit
    failure and no push is attempted; a failed push returns the push
    failure; otherwise the hash is read strictly and returned as
    [{success: true, sha}]. *)
Theorem push_commands_in_order
    (st : St World) msg o1 w1 o2 w2 o3 w3 o4 w4 :
  spawn add_argv (world st) = (o1, w1) ->
  spawn (commit_argv msg) w1 = (o2, w2) ->
  spawn push_argv w2 = (o3, w3) ->
  spawn revparse_argv w3 = (o4, w4) ->
  (exists k, (1 <= k <= 4)%nat
     /\ spawned (snd (push spawn msg st))
        = spawned st ++ firstn k (publish_commands msg))
  /\ forallb (fun argv => negb (is_subcommand (lit "fetch") argv
                                || is_subcommand (lit "pull") argv))
       (publish_commands msg) = true
  /\ (proc_exited o1 <> 0%Z ->
      push spawn msg st =
        (Throw (GitError (tl add_argv) (proc_exited o1)
                  (trim (proc_stdout o1)) (trim (proc_stderr o1))),
         after st w1 [add_argv]))
  /\ (proc_exited o1 = 0%Z -> commit_refused o2 = true ->
      push spawn msg st =
        (Ok {| push_success := false;
               push_sha := None;
               push_error :=
                 Some (lit "git commit failed: " ++ diagnostic o2) |},
         after st w2 [add_argv; commit_argv msg]))
  /\ (proc_exited o1 = 0%Z -> commit_refused o2 = false ->
      proc_exited o3 <> 0%Z ->
      push spawn msg st =
        (Ok {| push_success := false;
               push_sha := None;
               push_error := Some (lit "git push failed: " ++ diagnostic o3) |},
         after st w3 [add_argv; commit_argv msg; push_argv]))
  /\ (proc_exited o1 = 0%Z -> commit_refused o2 = false ->
      proc_exited o3 = 0%Z -> proc_exited o4 <> 0%Z ->
      push spawn msg st =
        (Throw (GitError (tl revparse_argv) (proc_exited o4)
                  (trim (proc_stdout o4)) (trim (proc_stderr o4))),
         after st w4 [add_argv; commit_argv msg; push_argv; revparse_argv]))
  /\ (proc_exited o1 = 0%Z -> commit_refused o2 = false ->
      proc_exited o3 = 0%Z -> proc_exited o4 = 0%Z ->
      push spawn msg st =
        (Ok {| push_success := true;
               push_sha := Some (trim (proc_stdout o4));
               push_error := None |},
         after st w4 [add_argv; commit_argv msg; push_argv; revparse_argv])).
Proof.
  intros H1 H2 H3 H4.
  rewrite (push_cases spawn st msg H1 H2 H3 H4).
  split; [|split; [reflexivity|]].
  - destruct (negb (proc_exited o1 =? 0)%Z); [exists 1%nat; split; [lia|reflexivity]|].
    destruct (commit_refused o2); [exists 2%nat; split; [lia|reflexivity]|].
    destruct (negb (proc_exited o3 =? 0)%Z); [exists 3%nat; split; [lia|reflexivity]|].
    exists 4%nat. split; [lia|].
    now destruct (negb (proc_exited o4 =? 0)%Z).
  - repeat split.
    + intros E. apply Z.eqb_neq in E. now rewrite E.
    + intros E1 R. now rewrite E1, R.
    + intros E1 R E3. apply Z.eqb_neq in E3. now rewrite E1, R, E3.
    + intros E1 R E3 E4. apply Z.eqb_neq in E4. now rewrite E1, R, E3, E4.
    + intros E1 R E3 E4. now rewrite E1, R, E3, E4.
Qed.

End Push.

Lemma push_nothing_to_commit_continues_witness :
  replay add_argv (world (start clean_in_sync))
    = (exit0 [], tl clean_in_sync)
  /\ replay (commit_argv (lit "Update catalogue")) (tl clean_in_sync)
     = (failed 1 (lit "On branch main" ++ LF
                  ++ lit "nothing to commit, working tree clean" ++ LF) [],
        tl (tl clean_in_sync))
  /\ replay push_argv (tl (tl clean_in_sync))
     = ({| proc_stdout := [];
           proc_stderr := lit "Everything up-to-date" ++ LF;
           proc_exited := 0 |},
        [exit0 (lit "abc1234" ++ LF)])
  /\ replay revparse_argv [exit0 (lit "abc1234" ++ LF)]
     = (exit0 (lit "abc1234" ++ LF), [])
  /\ push replay (lit "Update catalogue") (start clean_in_sync) =
       (Ok {| push_success := true;
              push_sha := Some (lit "abc1234");
              push_error := None |},
        after (start clean_in_sync) []
          [add_argv; commit_argv (lit "Update catalogue"); push_argv;
           revparse_argv]).
Proof.
  repeat (split; [reflexivity|]).
  refine (proj1 (@push_nothing_to_commit_continues Script replay
            (start clean_in_sync) (lit "Update catalogue")
            _ _ _ _ _ _ _ _ eq_refl eq_refl eq_refl eq_refl eq_refl _ _)
          eq_refl eq_refl).
  - discriminate.
  - left; reflexivity.
Defined.

(** C2: the claim fails on the code. With no pending change to the two
    data files but an untracked file elsewhere in the clone, [git add]
    succeeds and [git commit] exits with 1 after printing "nothing added
    to commit but untracked files present ...". That text does not contain
    "nothing to commit", so [push] returns [success == false] with
    "git commit failed: ..." and never spawns the push that the remote
    would have accepted, although the source announces
    "skip gracefully if nothing to commit". *)
Theorem push_fails_on_nothing_added :
  includes nothing_added (lit "nothing to commit") = false
  /\ push replay (lit "Update catalogue") (start clean_but_untracked) =
       (Ok {| push_success := false;
              push_sha := None;
              push_error := Some (lit "git commit failed: " ++ nothing_added) |},
        after (start clean_but_untracked)
          [{| proc_stdout := [];
              proc_stderr := lit "Everything up-to-date" ++ LF;
              proc_exited := 0 |};
           exit0 (lit "abc1234" ++ LF)]
          [add_argv; commit_argv (lit "Update catalogue")]).
Proof.
  split; reflexivity.
Qed.

Lemma push_commands_in_order_witness :
  replay add_argv (world (start edited)) = (exit0 [], tl edited)
  /\ replay (commit_argv (lit "Update catalogue")) (tl edited)
     = (exit0 (lit "[main abc1234] Update catalogue" ++ LF), tl (tl edited))
  /\ replay push_argv (tl (tl edited))
     = (exit0 [], [exit0 (lit "abc1234" ++ LF)])
  /\ replay revparse_argv [exit0 (lit "abc1234" ++ LF)]
     = (exit0 (lit "abc1234" ++ LF), [])
  /\ push replay (lit "Update catalogue") (start edited) =
       (Ok {| push_success := true;
              push_sha := Some (lit "abc1234");
              push_error := None |},
        after (start edited) []
          [add_argv; commit_argv (lit "Update catalogue"); push_argv;
           revparse_argv]).
Proof.
  repeat (split; [reflexivity|]).
  refine (proj2 (proj2 (proj2 (proj2 (proj2 (proj2
            (@push_commands_in_order Script replay (start edited)
               (lit "Update catalogue") _ _ _ _ _ _ _ _
               eq_refl eq_refl eq_refl eq_refl))))))
          eq_refl eq_refl eq_refl eq_refl).
Defined.

(** C4, as stated, fails: when the commit is refused for another reason
    than "nothing to commit", only the staging and the commit are spawned;
    no push is attempted. *)
Lemma push_stops_after_refused_commit :
  exists r st',
    push replay (lit "Update catalogue") (start unsigned) = (Ok r, st')
    /\ spawned st' = [add_argv; commit_argv (lit "Update catalogue")]
    /\ ~ In push_argv (spawned st')
    /\ push_success r = false
    /\ push_error r
       = Some (lit "git commit failed: error: gpg failed to sign the data").
Proof.
  eexists; eexists. split; [reflexivity|]. split; [reflexivity|].
  split; [|split; reflexivity].
  cbn. intros [H | [H | []]]; discriminate H.
Qed.

(* ------------------------------------------------------------------------- *)
(** ** [status] *)

Section Status.

Variable World : Type.
Variable spawn : list jsstring -> World -> ProcOut * World.

(** C1. Whenever [status] returns a [SyncStatus], its [dirty] flag is true
    exactly when [changedFiles] has a length greater than zero. *)
Theorem status_dirty_iff_changed (st st' : St World) (s : SyncStatus) :
  status spawn st = (Ok s, st') ->
  dirty s = true <-> (0 < List.length (changedFiles s))%nat.
Proof.
  destruct (spawn status_argv (world st)) as [o1 w1] eqn:H1.
  destruct (spawn revlist_argv w1) as [o2 w2] eqn:H2.
  rewrite (status_cases spawn st H1 H2).
  destruct (negb (proc_exited o1 =? 0)%Z); [discriminate|].
  intros [= <- _]. cbn [dirty changedFiles].
  apply Nat.ltb_lt.
Qed.

End Status.

Lemma status_dirty_iff_changed_witness :
  status replay (start staged_no_upstream) =
    (Ok {| dirty := true;
           ahead := Num 0;
           behind := Num 0;
           changedFiles := [lit "data/books.json"; lit "data/config.json"] |},
     after (start staged_no_upstream) [] [status_argv; revlist_argv])
  /\ (true = true <-> (0 < 2)%nat).
Proof.
  split; [reflexivity|].
  exact (@status_dirty_iff_changed Script replay
           (start staged_no_upstream) _ _ eq_refl).
Defined.

(** One porcelain line whose status code starts with a letter: the path
    comes out whole. *)
Lemma changed_paths_index_code (x y : N) (p : jsstring) :
  isWhiteSpace x = false -> y <> 0x0A%N -> solid p -> p <> [] ->
  changed_paths ([x; y; 0x20%N] ++ p ++ LF) = [p].
Proof.
  intros Hx Hy Hp Np. unfold changed_paths.
  assert (Hsx : solid [x]) by (constructor; [exact Hx|constructor]).
  assert (T : trim ([x; y; 0x20%N] ++ p ++ LF) = [x] ++ [y; 0x20%N] ++ p).
  { apply (@StringFacts.trim_framed [] [x] [y; 0x20%N] p LF);
      try assumption; try discriminate; repeat constructor. }
  rewrite T, StringFacts.split_single.
  - cbn [app filter truthy map slice skipn].
    now rewrite (StringFacts.trim_solid Hp).
  - cbn [app]. constructor; [intros ->; discriminate Hx|].
    constructor; [exact Hy|]. constructor; [discriminate|].
    now apply StringFacts.solid_no_line_feed.
Qed.

(** One porcelain line whose status code starts with a space (a change in
    the working tree only): the path loses its first code unit. *)
Lemma changed_paths_worktree_code (y : N) (p : jsstring) :
  isWhiteSpace y = false -> solid p -> p <> [] ->
  changed_paths ([0x20%N; y; 0x20%N] ++ p ++ LF) = [tl p].
Proof.
  intros Hy Hp Np. unfold changed_paths.
  assert (Hsy : solid [y]) by (constructor; [exact Hy|constructor]).
  assert (T : trim ([0x20%N; y; 0x20%N] ++ p ++ LF) = [y] ++ [0x20%N] ++ p).
  { apply (@StringFacts.trim_framed [0x20%N] [y] [0x20%N] p LF);
      try assumption; try discriminate; repeat constructor. }
  rewrite T, StringFacts.split_single.
  - destruct p as [|c p']; [congruence|].
    cbn [app filter truthy map slice skipn tl].
    inversion Hp; subst. now rewrite (@StringFacts.trim_solid p').
  - cbn [app]. constructor; [intros ->; discriminate Hy|].
    constructor; [discriminate|].
    now apply StringFacts.solid_no_line_feed.
Qed.

(** C7: the claim fails on the code. The porcelain line of a file that is
    modified but not staged starts with a space (" M data/books.json");
    [git] trims the whole output before [status] cuts it into lines, so
    the first line has lost one unit of its three-unit prefix and
    [slice(3)] cuts into the path: the entry is "ata/books.json", not
    "data/books.json". *)
Theorem status_first_line_loses_a_character :
  status replay (start one_modified) =
    (Ok {| dirty := true;
           ahead := Num 2;
           behind := Num 0;
           changedFiles := [lit "ata/books.json"] |},
     after (start one_modified) [] [status_argv; revlist_argv])
  /\ [lit "ata/books.json"] <> [lit "data/books.json"].
Proof.
  split; [reflexivity|discriminate].
Qed.

(* ------------------------------------------------------------------------- *)
(** ** [status]: the commit counts *)

Section Counts.

Variable World : Type.
Variable spawn : list jsstring -> World -> ProcOut * World.

Import StringFacts.

(** C6. Let the porcelain command succeed, so that [status] gets as far
    as the commit count. When [git rev-list --left-right --count
    HEAD...@{u}] exits with a non-zero code, [status] still returns a
    [SyncStatus], with [ahead == 0] and [behind == 0]. When it exits with
    0 and prints two decimal numerals separated by white space (with any
    white space around them), [ahead] is the first number and [behind]
    the second. The numbers are taken below 2^53, the range in which a
    JavaScript number is an exact integer. *)
Theorem status_ahead_behind (st : St World) o1 w1 o2 w2 :
  spawn status_argv (world st) = (o1, w1) ->
  proc_exited o1 = 0%Z ->
  spawn revlist_argv w1 = (o2, w2) ->
  exists s,
    status spawn st = (Ok s, after st w2 [status_argv; revlist_argv])
    /\ (proc_exited o2 <> 0%Z -> ahead s = Num 0 /\ behind s = Num 0)
    /\ (proc_exited o2 = 0%Z ->
        forall (a b : N) (pre sep post : jsstring),
          proc_stdout o2 = pre ++ (decimal a ++ sep ++ decimal b) ++ post ->
          blank pre -> blank sep -> sep <> [] -> blank post ->
          (a < 2 ^ 53)%N -> (b < 2 ^ 53)%N ->
          ahead s = Num (Z.of_N a) /\ behind s = Num (Z.of_N b)).
Proof.
  intros H1 E1 H2.
  rewrite (status_cases spawn st H1 H2), E1. cbn [Z.eqb negb].
  eexists. split; [reflexivity|]. cbn [ahead behind]. unfold counts. split.
  - intros E2. apply Z.eqb_neq in E2. rewrite E2. now split.
  - intros E2 a b pre sep post Hout Hpre Hsep Nsep Hpost _ _.
    rewrite E2, Hout. cbn [Z.eqb].
    rewrite (trim_framed sep Hpre Hpost
               (decimal_solid a) (@decimal_not_nil a)
               (decimal_solid b) (@decimal_not_nil b)).
    rewrite (split_ws_two (decimal_solid a) (@decimal_not_nil a) Hsep Nsep
               (decimal_solid b) (@decimal_not_nil b)).
    cbn [nth_or nth_error fst snd].
    now rewrite !parseInt_decimal.
Qed.

End Counts.

Lemma status_ahead_behind_witness :
  (replay status_argv (world (start one_modified))
     = (exit0 (lit " M data/books.json" ++ LF), tl one_modified)
   /\ proc_exited (exit0 (lit " M data/books.json" ++ LF)) = 0%Z
   /\ replay revlist_argv (tl one_modified)
      = (exit0 (lit "2" ++ TAB ++ lit "0" ++ LF), [])
   /\ exists s,
        status replay (start one_modified)
          = (Ok s, after (start one_modified) [] [status_argv; revlist_argv])
        /\ ahead s = Num 2 /\ behind s = Num 0)
  /\ (replay status_argv (world (start staged_no_upstream))
        = (exit0 (lit "M  data/books.json" ++ LF
                  ++ lit "?? data/config.json" ++ LF),
           tl staged_no_upstream)
      /\ replay revlist_argv (tl staged_no_upstream)
         = (failed 128 []
              (lit "fatal: no upstream configured for branch 'main'" ++ LF),
            [])
      /\ exists s,
           status replay (start staged_no_upstream)
             = (Ok s, after (start staged_no_upstream) []
                        [status_argv; revlist_argv])
           /\ ahead s = Num 0 /\ behind s = Num 0).
Proof.
  split.
  - repeat (split; [reflexivity|]).
    destruct (@status_ahead_behind Script replay (start one_modified)
                _ _ _ _ eq_refl eq_refl eq_refl) as (s & Hs & _ & Hok).
    exists s. split; [exact Hs|].
    apply (Hok eq_refl 2%N 0%N [] TAB LF); try reflexivity;
      try (repeat constructor); discriminate.
  - repeat (split; [reflexivity|]).
    destruct (@status_ahead_behind Script replay (start staged_no_upstream)
                _ _ _ _ eq_refl eq_refl eq_refl) as (s & Hs & Hfail & _).
    exists s. split; [exact Hs|]. apply Hfail. discriminate.
Defined.

(* ------------------------------------------------------------------------- *)
(** ** [handleSync] *)

Section Routes.

Variable World : Type.
Variable spawn : list jsstring -> World -> ProcOut * World.

Import StringFacts.

(** The third route, once method and path have matched. *)
Lemma handleSync_push_route (st : St World) req :
  method req = lit "POST" ->
  pathname req = lit "/api/sync/push" ->
  handleSync spawn req st =
    bind (req_json req) (fun body =>
    bind (get_message body) (fun m =>
    bind (opt_trim m) (fun t =>
    bind (push spawn
            match t with
            | Some s => or_else s (lit "Update catalogue")
            | None => lit "Update catalogue"
            end) (fun result =>
    ret {| resp_body := OfPush result;
           resp_status := if push_success result then 200%Z else 409%Z |}))))
    st.
Proof.
  intros Hm Hp. unfold handleSync. rewrite Hm, Hp.
  assert (R1 : eqb (lit "POST") (lit "GET") = false) by reflexivity.
  assert (R2 : eqb (lit "/api/sync/push") (lit "/api/sync/pull") = false)
    by reflexivity.
  assert (R3 : eqb (lit "POST") (lit "POST") = true) by reflexivity.
  assert (R4 : eqb (lit "/api/sync/push") (lit "/api/sync/push") = true)
    by reflexivity.
  rewrite R1, R2, R3, R4. reflexivity.
Qed.

(** The push route with a message that is a string. *)
Lemma handleSync_push_string (st : St World) req ms s :
  method req = lit "POST" ->
  pathname req = lit "/api/sync/push" ->
  json_body req = Some (JObj ms) ->
  member (lit "message") ms = Some (JStr s) ->
  handleSync spawn req st =
    match push spawn (or_else (trim s) (lit "Update catalogue")) st with
    | (Ok r, st') =>
        (Ok {| resp_body := OfPush r;
               resp_status := if push_success r then 200%Z else 409%Z |}, st')
    | (Throw e, st') => (Throw e, st')
    end.
Proof.
  intros Hm Hp Hb Hmem. rewrite (handleSync_push_route st req Hm Hp).
  unfold bind at 1 2 3. unfold req_json. rewrite Hb.
  unfold ret at 1, get_message. rewrite Hmem.
  unfold ret at 1, opt_trim, ret at 1. unfold bind.
  now destruct (push spawn _ st) as [[r|e] st'].
Qed.

(** The push route without a message. *)
Lemma handleSync_push_absent (st : St World) req ms :
  method req = lit "POST" ->
  pathname req = lit "/api/sync/push" ->
  json_body req = Some (JObj ms) ->
  member (lit "message") ms = None ->
  handleSync spawn req st =
    match push spawn (lit "Update catalogue") st with
    | (Ok r, st') =>
        (Ok {| resp_body := OfPush r;
               resp_status := if push_success r then 200%Z else 409%Z |}, st')
    | (Throw e, st') => (Throw e, st')
    end.
Proof.
  intros Hm Hp Hb Hmem. rewrite (handleSync_push_route st req Hm Hp).
  unfold bind at 1 2 3. unfold req_json. rewrite Hb.
  unfold ret at 1, get_message. rewrite Hmem.
  unfold ret at 1, opt_trim, ret at 1. unfold bind.
  now destruct (push spawn _ st) as [[r|e] st'].
Qed.

(** C8. On [POST /api/sync/push] with a JSON object whose [message] is
    absent, empty or made of white space only, the handler does not
    reject the request: it calls [push] with "Update catalogue". And on
    that route, whatever the body, a response that comes from a
    [PushResult] has status 200 when its [success] is true and 409
    otherwise. *)
Theorem handleSync_push_default_message (st : St World) req :
  method req = lit "POST" ->
  pathname req = lit "/api/sync/push" ->
  (forall ms,
     json_body req = Some (JObj ms) ->
     (member (lit "message") ms = None
      \/ exists s, member (lit "message") ms = Some (JStr s) /\ blank s) ->
     handleSync spawn req st =
       match push spawn (lit "Update catalogue") st with
       | (Ok r, st') =>
           (Ok {| resp_body := OfPush r;
                  resp_status := if push_success r then 200%Z else 409%Z |},
            st')
       | (Throw e, st') => (Throw e, st')
       end)
  /\ (forall resp st',
        handleSync spawn req st = (Ok resp, st') ->
        exists r,
          resp_body resp = OfPush r
          /\ resp_status resp = if push_success r then 200%Z else 409%Z).
Proof.
  intros Hm Hp. split.
  - intros ms Hb [Habs | (s & Hs & Hblank)].
    + now apply handleSync_push_absent with (ms := ms).
    + rewrite (handleSync_push_string st req Hm Hp Hb Hs).
      now rewrite (trim_blank Hblank).
  - intros resp st'. rewrite (handleSync_push_route st req Hm Hp).
    unfold bind, req_json, get_message, opt_trim, ret, throw.
    destruct (json_body req) as [[| | | | |ms]|]; try discriminate;
      try (destruct (member (lit "message") ms) as [[| | |s| |]|]);
      try discriminate;
      match goal with
      | |- context [push spawn ?m st] =>
          destruct (push spawn m st) as [[r|e] st1]
      end;
      try discriminate;
      intros [= <- _]; exists r; now split.
Qed.

(** C9. On [POST /api/sync/push] with a non-empty string as [message],
    the commit message handed to [push] is the trimmed string when that
    is not empty, and "Update catalogue" when it is. *)
Theorem handleSync_push_trims_message (st : St World) req ms s :
  method req = lit "POST" ->
  pathname req = lit "/api/sync/push" ->
  json_body req = Some (JObj ms) ->
  member (lit "message") ms = Some (JStr s) ->
  s <> [] ->
  exists m,
    (trim s <> [] -> m = trim s)
    /\ (trim s = [] -> m = lit "Update catalogue")
    /\ handleSync spawn req st =
         match push spawn m st with
         | (Ok r, st') =>
             (Ok {| resp_body := OfPush r;
                    resp_status := if push_success r then 200%Z else 409%Z |},
              st')
         | (Throw e, st') => (Throw e, st')
         end.
Proof.
  intros Hm Hp Hb Hs _.
  exists (or_else (trim s) (lit "Update catalogue")).
  split; [|split].
  - unfold or_else. destruct (trim s); [congruence|reflexivity].
  - now intros ->.
  - now apply handleSync_push_string with (ms := ms).
Qed.

(** C10. A request that is none of [GET /api/sync/status],
    [POST /api/sync/pull] and [POST /api/sync/push] is answered with
    "Not found" and status 404; the world is left as it was and no
    process has been spawned. *)
Theorem handleSync_not_found (st : St World) req :
  ~ (method req = lit "GET" /\ pathname req = lit "/api/sync/status") ->
  ~ (method req = lit "POST" /\ pathname req = lit "/api/sync/pull") ->
  ~ (method req = lit "POST" /\ pathname req = lit "/api/sync/push") ->
  handleSync spawn req st =
    (Ok {| resp_body := OfText (lit "Not found"); resp_status := 404 |}, st).
Proof.
  intros N1 N2 N3. unfold handleSync.
  destruct (eqb (method req) (lit "GET")
            && eqb (pathname req) (lit "/api/sync/status")) eqn:E1.
  { exfalso. apply N1. apply andb_prop in E1. now rewrite <- !eqb_eq. }
  destruct (eqb (method req) (lit "POST")
            && eqb (pathname req) (lit "/api/sync/pull")) eqn:E2.
  { exfalso. apply N2. apply andb_prop in E2. now rewrite <- !eqb_eq. }
  destruct (eqb (method req) (lit "POST")
            && eqb (pathname req) (lit "/api/sync/push")) eqn:E3.
  { exfalso. apply N3. apply andb_prop in E3. now rewrite <- !eqb_eq. }
  reflexivity.
Qed.

End Routes.

Lemma handleSync_push_default_message_witness :
  method (push_request blank_message) = lit "POST"
  /\ pathname (push_request blank_message) = lit "/api/sync/push"
  /\ json_body (push_request blank_message)
     = Some (JObj [(lit "message", JStr (lit "  " ++ TAB ++ LF))])
  /\ blank (lit "  " ++ TAB ++ LF)
  /\ handleSync replay (push_request blank_message) (start edited) =
       (Ok {| resp_body :=
                OfPush {| push_success := true;
                          push_sha := Some (lit "abc1234");
                          push_error := None |};
              resp_status := 200 |},
        after (start edited) []
          [add_argv; commit_argv (lit "Update catalogue"); push_argv;
           revparse_argv])
  /\ handleSync replay (push_request no_message) (start clean_but_stale) =
       (Ok {| resp_body :=
                OfPush {| push_success := false;
                          push_sha := None;
                          push_error :=
                            Some (lit "git push failed: ! [rejected] main -> main (stale info)") |};
              resp_status := 409 |},
        after (start clean_but_stale) []
          [add_argv; commit_argv (lit "Update catalogue"); push_argv]).
Proof.
  repeat (split; [reflexivity|]).
  split; [repeat constructor|]. split.
  - refine (proj1 (@handleSync_push_default_message Script replay
              (start edited) (push_request blank_message) eq_refl eq_refl)
            _ eq_refl _).
    right. eexists. split; [reflexivity|repeat constructor].
  - refine (proj1 (@handleSync_push_default_message Script replay
              (start clean_but_stale) (push_request no_message)
              eq_refl eq_refl)
            _ eq_refl _).
    left. reflexivity.
Defined.

Lemma handleSync_push_trims_message_witness :
  method (push_request padded_message) = lit "POST"
  /\ pathname (push_request padded_message) = lit "/api/sync/push"
  /\ json_body (push_request padded_message)
     = Some (JObj [(lit "message", JStr (lit "  Fix typo in title " ++ LF))])
  /\ member (lit "message")
       [(lit "message", JStr (lit "  Fix typo in title " ++ LF))]
     = Some (JStr (lit "  Fix typo in title " ++ LF))
  /\ lit "  Fix typo in title " ++ LF <> []
  /\ handleSync replay (push_request padded_message) (start edited) =
       (Ok {| resp_body :=
                OfPush {| push_success := true;
                          push_sha := Some (lit "abc1234");
                          push_error := None |};
              resp_status := 200 |},
        after (start edited) []
          [add_argv; commit_argv (lit "Fix typo in title"); push_argv;
           revparse_argv]).
Proof.
  repeat (split; [reflexivity|]).
  split; [discriminate|].
  destruct (@handleSync_push_trims_message Script replay (start edited)
              (push_request padded_message) _ _
              eq_refl eq_refl eq_refl eq_refl)
    as (m & Hm & _ & H).
  - discriminate.
  - rewrite H, Hm by discriminate. reflexivity.
Defined.

Lemma handleSync_not_found_witness :
  ~ (method delete_request = lit "GET"
     /\ pathname delete_request = lit "/api/sync/status")
  /\ ~ (method delete_request = lit "POST"
        /\ pathname delete_request = lit "/api/sync/pull")
  /\ ~ (method delete_request = lit "POST"
        /\ pathname delete_request = lit "/api/sync/push")
  /\ handleSync replay delete_request (start edited) =
       (Ok {| resp_body := OfText (lit "Not found"); resp_status := 404 |},
        start edited).
Proof.
  assert (N : lit "DELETE" <> lit "GET" /\ lit "DELETE" <> lit "POST")
    by (split; discriminate).
  destruct N as [N1 N2].
  assert (H1 : ~ (method delete_request = lit "GET"
                  /\ pathname delete_request = lit "/api/sync/status"))
    by (intros [E _]; exact (N1 E)).
  assert (H2 : ~ (method delete_request = lit "POST"
                  /\ pathname delete_request = lit "/api/sync/pull"))
    by (intros [E _]; exact (N2 E)).
  assert (H3 : ~ (method delete_request = lit "POST"
                  /\ pathname delete_request = lit "/api/sync/push"))
    by (intros [E _]; exact (N2 E)).
  repeat (split; [assumption|]).
  exact (@handleSync_not_found Script replay (start edited) delete_request
           H1 H2 H3).
Defined.

(* ------------------------------------------------------------------------- *)
(** ** More about trimming and splitting *)

Module TrimFacts.

Import StringFacts.

Lemma trimStart_suffix s : exists pre, blank pre /\ s = pre ++ trimStart s.
Proof.
  induction s as [|c s (pre & Hpre & E)].
  { exists []. split; [constructor|reflexivity]. }
  cbn [trimStart]. destruct (isWhiteSpace c) eqn:Hc.
  - exists (c :: pre). split; [now constructor|]. cbn. now f_equal.
  - exists []. split; [constructor|reflexivity].
Qed.

Lemma trimStart_head s c r : trimStart s = c :: r -> isWhiteSpace c = false.
Proof.
  induction s as [|x s IH]; [discriminate|].
  cbn [trimStart]. destruct (isWhiteSpace x) eqn:Hx; [exact IH|].
  now intros [= <- _].
Qed.

(** What [trim] returns has white space at neither end. *)
Lemma trim_tight s : tight (trim s).
Proof.
  unfold trim, trimEnd.
  set (t := trimStart s). set (u := trimStart (List.rev t)).
  split.
  - intros c r E.
    destruct (trimStart_suffix (List.rev t)) as (pre & _ & Ht). fold u in Ht.
    apply (f_equal (@List.rev N)) in Ht.
    rewrite rev_involutive, rev_app_distr, E in Ht.
    apply (trimStart_head s (r := r ++ List.rev pre)). fold t. now rewrite Ht.
  - intros i c E.
    apply (f_equal (@List.rev N)) in E.
    rewrite rev_involutive, rev_app_distr in E. cbn in E.
    now apply (trimStart_head (List.rev t) (r := List.rev i)).
Qed.

Lemma tight_trim s : tight s -> trim s = s.
Proof.
  intros [Hh Hl]. unfold trim, trimEnd.
  destruct s as [|c r]; [reflexivity|].
  assert (E1 : trimStart (c :: r) = c :: r).
  { cbn [trimStart]. now rewrite (Hh c r eq_refl). }
  rewrite E1.
  destruct (@exists_last _ (c :: r)) as (i & z & E); [discriminate|].
  rewrite E, rev_app_distr. cbn [List.rev app trimStart].
  rewrite (Hl i z E). cbn. now rewrite rev_involutive.
Qed.

Lemma trim_idem s : trim (trim s) = trim s.
Proof. apply tight_trim, trim_tight. Qed.

Lemma blank_app a b : blank a -> blank b -> blank (a ++ b).
Proof. intros Ha Hb. apply Forall_app. now split. Qed.

(** Only a blank text is trimmed to nothing. *)
Lemma trim_nil_iff s : trim s = [] <-> blank s.
Proof.
  split; [|apply trim_blank].
  unfold trim, trimEnd. intros E.
  destruct (trimStart_suffix s) as (pre & Hpre & Hs).
  destruct (trimStart_suffix (List.rev (trimStart s))) as (pre' & Hpre' & Ht).
  apply (f_equal (@List.rev N)) in E. rewrite rev_involutive in E. cbn in E.
  rewrite E, app_nil_r in Ht.
  apply (f_equal (@List.rev N)) in Ht. rewrite rev_involutive in Ht.
  rewrite Hs, Ht. apply blank_app; [exact Hpre|now apply blank_rev].
Qed.

Lemma trim_blank_frame pre s post :
  blank pre -> blank post -> solid s -> s <> [] ->
  trim (pre ++ s ++ post) = s.
Proof.
  intros Hpre Hpost Hs Ns. unfold trim, trimEnd.
  rewrite (trimStart_blank_app _ Hpre), (trimStart_solid_app _ Hs Ns).
  rewrite rev_app_distr, (trimStart_blank_app _ (blank_rev Hpost)).
  rewrite (trimStart_solid (solid_rev Hs)). apply rev_involutive.
Qed.

(** Trimming removes white space around the text and nothing else. *)
Lemma trim_stripped s : stripped s (trim s).
Proof.
  split; [apply trim_tight|].
  unfold trim, trimEnd.
  destruct (trimStart_suffix s) as (pre & Hpre & Hs).
  destruct (trimStart_suffix (List.rev (trimStart s))) as (pre' & Hpre' & Ht).
  exists pre, (List.rev pre'). split; [exact Hpre|].
  split; [now apply blank_rev|].
  apply (f_equal (@List.rev N)) in Ht.
  rewrite rev_involutive, rev_app_distr in Ht.
  now rewrite <- Ht.
Qed.

Lemma split_not_nil sep s : split sep s <> [].
Proof.
  induction s as [|c s IH]; cbn; [discriminate|].
  destruct (c =? sep)%N; [discriminate|].
  destruct (split sep s); discriminate.
Qed.

(** A text that does not start with the separator has a non-empty first
    part. *)
Lemma split_head sep c r :
  c <> sep -> exists p ps, split sep (c :: r) = (c :: p) :: ps.
Proof.
  intros Hc. cbn [split]. apply N.eqb_neq in Hc. rewrite Hc.
  pose proof (@split_not_nil sep r) as N.
  destruct (split sep r) as [|p ps]; [congruence|]. now exists p, ps.
Qed.

Lemma split_app_sep sep a rest :
  Forall (fun c => c <> sep) a ->
  split sep (a ++ sep :: rest) = a :: split sep rest.
Proof.
  induction 1 as [|c a Hc _ IH]; cbn [app split].
  - now rewrite N.eqb_refl.
  - apply N.eqb_neq in Hc. now rewrite Hc, IH.
Qed.

Lemma split_one sep a :
  Forall (fun c => c <> sep) a -> split sep a = [a].
Proof.
  induction 1 as [|c a Hc _ IH]; [reflexivity|].
  cbn [split]. apply N.eqb_neq in Hc. now rewrite Hc, IH.
Qed.

End TrimFacts.

(* ------------------------------------------------------------------------- *)
(** ** The process runner: what a caller can rely on *)

Section RunnerFacts.

Variable World : Type.
Variable spawn : list jsstring -> World -> ProcOut * World.

(** When the process [git args] has run, with any exit code, [gitSafe]
    returns an outcome and has spawned that process alone: [ok] is true
    exactly when the exit code is 0, and [stdout] and [stderr] are the two
    streams of the process without the white space around them. *)
Theorem gitSafe_outcome (args : list jsstring) (st : St World) o w' :
  spawn (lit "git" :: args) (world st) = (o, w') ->
  exists r,
    gitSafe spawn args st = (Ok r, after st w' [lit "git" :: args])
    /\ (ok r = true <-> proc_exited o = 0%Z)
    /\ stdout r = trim (proc_stdout o)
    /\ stderr r = trim (proc_stderr o)
    /\ stripped (proc_stdout o) (stdout r)
    /\ stripped (proc_stderr o) (stderr r).
Proof.
  intros H.
  rewrite (@gitSafe_spawn World spawn _ args st o w' eq_refl H).
  eexists. split; [reflexivity|]. cbn [ok stdout stderr].
  split; [apply Z.eqb_eq|]. split; [reflexivity|]. split; [reflexivity|].
  split; apply TrimFacts.trim_stripped.
Qed.

(** When the process [git args] has run, [git] has spawned that process
    alone and: with exit code 0 it returns the standard output of the
    process without the white space around it; with any other exit code
    it throws the [GitError] made of the arguments, that exit code and the
    two streams without the white space around them. *)
Theorem git_returns_or_throws (args : list jsstring) (st : St World) o w' :
  spawn (lit "git" :: args) (world st) = (o, w') ->
  (proc_exited o = 0%Z ->
   git spawn args st =
     (Ok (trim (proc_stdout o)), after st w' [lit "git" :: args]))
  /\ (proc_exited o <> 0%Z ->
      git spawn args st =
        (Throw (GitError args (proc_exited o)
                  (trim (proc_stdout o)) (trim (proc_stderr o))),
         after st w' [lit "git" :: args]))
  /\ stripped (proc_stdout o) (trim (proc_stdout o))
  /\ stripped (proc_stderr o) (trim (proc_stderr o)).
Proof.
  intros H.
  rewrite (@git_spawn World spawn _ args st o w' eq_refl H).
  split; [|split; [|split; apply TrimFacts.trim_stripped]].
  - now intros ->.
  - intros E. apply Z.eqb_neq in E. now rewrite E.
Qed.

End RunnerFacts.

Lemma gitSafe_outcome_witness :
  replay (lit "git" :: [lit "fetch"]) (world (start offline))
    = (failed 128 [] (lit "fatal: unable to access the remote" ++ LF), [])
  /\ exists r,
       gitSafe replay [lit "fetch"] (start offline)
         = (Ok r, after (start offline) [] [lit "git" :: [lit "fetch"]])
       /\ (ok r = true <-> 128%Z = 0%Z)
       /\ stdout r = []
       /\ stderr r = lit "fatal: unable to access the remote"
       /\ stripped [] (stdout r)
       /\ stripped (lit "fatal: unable to access the remote" ++ LF) (stderr r).
Proof.
  split; [reflexivity|].
  exact (@gitSafe_outcome Script replay [lit "fetch"] (start offline) _ _
           eq_refl).
Defined.

Lemma git_returns_or_throws_witness :
  replay (lit "git" :: [lit "rev-parse"; lit "--short"; lit "HEAD"])
    (world (start [exit0 (lit "abc1234" ++ LF)]))
    = (exit0 (lit "abc1234" ++ LF), [])
  /\ proc_exited (exit0 (lit "abc1234" ++ LF)) = 0%Z
  /\ git replay [lit "rev-parse"; lit "--short"; lit "HEAD"]
       (start [exit0 (lit "abc1234" ++ LF)])
     = (Ok (lit "abc1234"),
        after (start [exit0 (lit "abc1234" ++ LF)]) [] [revparse_argv]).
Proof.
  split; [reflexivity|]. split; [reflexivity|].
  exact (proj1 (@git_returns_or_throws Script replay
                  [lit "rev-parse"; lit "--short"; lit "HEAD"]
                  (start [exit0 (lit "abc1234" ++ LF)]) _ _ eq_refl)
           eq_refl).
Defined.

(* ------------------------------------------------------------------------- *)
(** ** [status]: the working tree *)

Module PorcelainFacts.

Import StringFacts TrimFacts.

Lemma ends_solid_last l i c :
  ends_solid l -> l = i ++ [c] -> isWhiteSpace c = false.
Proof.
  intros (front & p & -> & Hp & Np) E.
  destruct (@exists_last _ p Np) as (p' & z & ->).
  rewrite app_assoc in E. apply app_inj_tail in E as [_ <-].
  apply Forall_app in Hp as [_ Hz]. now inversion Hz.
Qed.

Lemma ends_solid_not_nil l : ends_solid l -> l <> [].
Proof.
  intros (front & p & -> & _ & Np) E. apply app_eq_nil in E as [_ E].
  contradiction.
Qed.

Lemma trim_tight_frame pre j post :
  blank pre -> blank post -> tight j -> j <> [] ->
  trim (pre ++ j ++ post) = j.
Proof.
  intros Hpre Hpost [Hh Hl] Nj. unfold trim, trimEnd.
  rewrite (trimStart_blank_app _ Hpre).
  destruct j as [|c r]; [congruence|].
  cbn [app trimStart]. rewrite (Hh c r eq_refl).
  change (c :: r ++ post) with ((c :: r) ++ post).
  rewrite rev_app_distr, (trimStart_blank_app _ (blank_rev Hpost)).
  destruct (@exists_last _ (c :: r) Nj) as (i & z & E).
  rewrite E, rev_app_distr. cbn [List.rev app trimStart].
  rewrite (Hl i z E). cbn. now rewrite rev_involutive.
Qed.

Lemma porcelain_join l0 es :
  l0 ++ LF ++ porcelain es
  = join_with LF (l0 :: map entry_line es) ++ LF.
Proof.
  revert l0. induction es as [|e es IH]; intros l0.
  - cbn. now rewrite ?app_nil_r.
  - change (porcelain (e :: es))
      with ((entry_line e ++ LF) ++ porcelain es).
    rewrite <- (app_assoc (entry_line e)), IH.
    cbn [map join_with]. now rewrite <- !app_assoc.
Qed.

Lemma last_cons (l d : jsstring) ls : last (l :: ls) d = last ls l.
Proof.
  revert l d. induction ls as [|x ls IH]; intros l d; [reflexivity|].
  change (last (l :: x :: ls) d) with (last (x :: ls) d).
  now rewrite !IH.
Qed.

Lemma join_last l0 ls :
  exists front, join_with LF (l0 :: ls) = front ++ last ls l0.
Proof.
  revert l0. induction ls as [|l ls IH]; intros l0.
  - now exists [].
  - destruct (IH l) as (front & E).
    exists (l0 ++ LF ++ front).
    change (join_with LF (l0 :: l :: ls))
      with (l0 ++ LF ++ join_with LF (l :: ls)).
    now rewrite E, <- !app_assoc, last_cons.
Qed.

Lemma last_Forall (P : jsstring -> Prop) l0 ls :
  P l0 -> Forall P ls -> P (last ls l0).
Proof.
  intros H0 H. revert l0 H0. induction H as [|l ls Hl _ IH]; intros l0 H0.
  - exact H0.
  - cbn [last]. destruct ls; [exact Hl|]. now apply IH.
Qed.

Lemma split_join l0 ls :
  Forall (fun l => Forall (fun c => c <> 0x0A%N) l) (l0 :: ls) ->
  split 0x0A (join_with LF (l0 :: ls)) = l0 :: ls.
Proof.
  revert l0. induction ls as [|l ls IH]; intros l0 H.
  - inversion H; subst. now apply split_one.
  - inversion H as [|? ? H0 Hrest]; subst.
    change (join_with LF (l0 :: l :: ls))
      with (l0 ++ 0x0A%N :: join_with LF (l :: ls)).
    now rewrite (split_app_sep _ H0), (IH l Hrest).
Qed.

Lemma filter_truthy_all ls :
  Forall (fun l : jsstring => l <> []) ls -> filter truthy ls = ls.
Proof.
  induction 1 as [|l ls Hl _ IH]; [reflexivity|].
  cbn [filter]. destruct l; [congruence|]. cbn. now rewrite IH.
Qed.

Lemma plain_line_no_line_feed e :
  plain e -> Forall (fun c => c <> 0x0A%N) (entry_line e).
Proof.
  intros (Hx & Hy & Hp & _). unfold entry_line. cbn [app].
  constructor; [exact Hx|]. constructor; [exact Hy|].
  constructor; [discriminate|]. now apply solid_no_line_feed.
Qed.

Lemma plain_line_ends_solid e : plain e -> ends_solid (entry_line e).
Proof.
  intros (_ & _ & Hp & Np).
  now exists [index_code e; worktree_code e; 0x20%N], (entry_path e).
Qed.

Lemma plain_line_path e :
  plain e -> trim (slice 3 (entry_line e)) = entry_path e.
Proof.
  intros (_ & _ & Hp & _). cbn. now apply trim_solid.
Qed.

(** The paths [status] computes from an output whose first line is [l0]
    (after the white space [pre], which the trimming removes) and whose
    other lines are those of [es]. *)
Lemma changed_paths_lines pre l0 c r es :
  blank pre -> l0 = c :: r -> isWhiteSpace c = false ->
  Forall (fun x => x <> 0x0A%N) l0 -> ends_solid l0 ->
  Forall plain es ->
  changed_paths (pre ++ l0 ++ LF ++ porcelain es)
  = trim (slice 3 l0) :: map entry_path es.
Proof.
  intros Hpre E0 Hc Hnl Hend Hes. unfold changed_paths.
  rewrite porcelain_join.
  set (ls := map entry_line es).
  assert (Hls_end : Forall ends_solid ls).
  { unfold ls. apply Forall_map.
    revert Hes. apply Forall_impl. exact plain_line_ends_solid. }
  assert (Hls_nl : Forall (fun l => Forall (fun x => x <> 0x0A%N) l) ls).
  { unfold ls. apply Forall_map.
    revert Hes. apply Forall_impl. exact plain_line_no_line_feed. }
  assert (T : tight (join_with LF (l0 :: ls))).
  { split.
    - intros c' r' E. rewrite E0 in E.
      assert (c' = c) as ->; [|exact Hc].
      destruct ls; cbn in E; now injection E.
    - intros i z E. destruct (join_last l0 ls) as (front & EJ).
      apply (@ends_solid_last (join_with LF (l0 :: ls)) i z); [|exact E].
      destruct (@last_Forall ends_solid _ _ Hend Hls_end)
        as (f & p & El & Hp & Np).
      exists (front ++ f), p. split; [|now split].
      rewrite El in EJ. rewrite <- app_assoc. exact EJ. }
  assert (NJ : join_with LF (l0 :: ls) <> []).
  { rewrite E0. destruct ls; discriminate. }
  rewrite (trim_tight_frame Hpre (post := LF)); trivial;
    [|repeat constructor].
  rewrite split_join by now constructor.
  rewrite filter_truthy_all.
  - cbn [map]. f_equal. unfold ls. rewrite map_map.
    apply map_ext_Forall. revert Hes. apply Forall_impl.
    exact plain_line_path.
  - constructor; [apply (ends_solid_not_nil Hend)|].
    revert Hls_end. apply Forall_impl. exact ends_solid_not_nil.
Qed.

End PorcelainFacts.

Section StatusFacts.

Variable World : Type.
Variable spawn : list jsstring -> World -> ProcOut * World.

Import StringFacts TrimFacts PorcelainFacts.

Lemma changed_paths_nil_iff raw : changed_paths raw = [] <-> blank raw.
Proof.
  rewrite <- trim_nil_iff. unfold changed_paths. split.
  - intros E. destruct (trim raw) as [|c r] eqn:T; [reflexivity|].
    exfalso.
    assert (Hc : isWhiteSpace c = false).
    { apply (proj1 (trim_tight raw) c r T). }
    destruct (@split_head 0x0A%N c r) as (p & ps & S).
    { intros ->. discriminate Hc. }
    rewrite S in E. discriminate E.
  - now intros ->.
Qed.

(** [status] reports a clean tree exactly when the porcelain command
    printed nothing but white space; [changedFiles] is then empty. *)
Theorem status_clean_iff_blank (st st' : St World) o1 w1 s :
  spawn status_argv (world st) = (o1, w1) ->
  status spawn st = (Ok s, st') ->
  (dirty s = false <-> blank (proc_stdout o1))
  /\ (blank (proc_stdout o1) -> changedFiles s = []).
Proof.
  intros H1. destruct (spawn revlist_argv w1) as [o2 w2] eqn:H2.
  rewrite (status_cases spawn st H1 H2).
  destruct (negb (proc_exited o1 =? 0)%Z); [discriminate|].
  intros [= <- _]. cbn [dirty changedFiles].
  rewrite <- changed_paths_nil_iff. split.
  - now destruct (changed_paths (proc_stdout o1)).
  - trivial.
Qed.

(** Given the outcome of [git status --porcelain] and of
    [git rev-list]: when the first exits with a non-zero code, [status]
    throws its [GitError] and the second is not spawned; when the first
    exits with 0, [status] returns a [SyncStatus] after spawning the
    second, whatever that one's exit code and output. These two local
    commands are all it spawns. *)
Theorem status_strict_then_safe (st : St World) o1 w1 o2 w2 :
  spawn status_argv (world st) = (o1, w1) ->
  spawn revlist_argv w1 = (o2, w2) ->
  (proc_exited o1 <> 0%Z ->
   status spawn st =
     (Throw (GitError (tl status_argv) (proc_exited o1)
               (trim (proc_stdout o1)) (trim (proc_stderr o1))),
      after st w1 [status_argv]))
  /\ (proc_exited o1 = 0%Z ->
      exists s,
        status spawn st = (Ok s, after st w2 [status_argv; revlist_argv])).
Proof.
  intros H1 H2.
  rewrite (status_cases spawn st H1 H2). split.
  - intros E. apply Z.eqb_neq in E. now rewrite E.
  - intros E. rewrite E. cbn [Z.eqb negb]. now eexists.
Qed.

(** When the commit count succeeds but prints less than two numbers:
    with a blank output [ahead] is [NaN] and [behind] is 0; with a single
    numeral [ahead] is that number and [behind] is 0. *)
Theorem status_counts_on_short_output (st st' : St World) o1 w1 o2 w2 s :
  spawn status_argv (world st) = (o1, w1) ->
  spawn revlist_argv w1 = (o2, w2) ->
  proc_exited o2 = 0%Z ->
  status spawn st = (Ok s, st') ->
  (blank (proc_stdout o2) -> ahead s = NaN /\ behind s = Num 0)
  /\ (forall (a : N) (pre post : jsstring),
        proc_stdout o2 = pre ++ decimal a ++ post ->
        blank pre -> blank post -> (a < 2 ^ 53)%N ->
        ahead s = Num (Z.of_N a) /\ behind s = Num 0).
Proof.
  intros H1 H2 E2. rewrite (status_cases spawn st H1 H2).
  destruct (negb (proc_exited o1 =? 0)%Z); [discriminate|].
  intros [= <- _]. cbn [ahead behind]. unfold counts. rewrite E2.
  cbn [Z.eqb]. split.
  - intros Hb. rewrite (trim_blank Hb). now split.
  - intros a pre post Hout Hpre Hpost _.
    rewrite Hout, (trim_blank_frame Hpre Hpost
                     (decimal_solid a) (@decimal_not_nil a)).
    assert (S : split_ws (decimal a) = [decimal a]).
    { unfold split_ws. rewrite <- (app_nil_r (decimal a)) at 1.
      rewrite (split_ws_from_solid_app false []
                 (decimal_solid a) (@decimal_not_nil a)).
      cbn [split_ws_from]. now rewrite app_nil_r. }
    cbv zeta. rewrite S. cbn [nth_or nth_error fst snd].
    rewrite parseInt_decimal. split; reflexivity.
Qed.

(** When the first line of the porcelain output has a letter as the first
    character of its status code (a staged, untracked or ignored path),
    [changedFiles] is the list of the paths of all lines, in order. *)
Theorem status_paths_after_index_code (st st' : St World) o1 w1 e es s :
  spawn status_argv (world st) = (o1, w1) ->
  proc_stdout o1 = porcelain (e :: es) ->
  Forall plain (e :: es) ->
  isWhiteSpace (index_code e) = false ->
  status spawn st = (Ok s, st') ->
  changedFiles s = map entry_path (e :: es).
Proof.
  intros H1 Hout Hplain Hx.
  destruct (spawn revlist_argv w1) as [o2 w2] eqn:H2.
  rewrite (status_cases spawn st H1 H2).
  destruct (negb (proc_exited o1 =? 0)%Z); [discriminate|].
  intros [= <- _]. cbn [changedFiles]. rewrite Hout.
  inversion Hplain as [|? ? He Hes]; subst.
  change (porcelain (e :: es))
    with ([] ++ (entry_line e ++ LF) ++ porcelain es).
  rewrite <- (app_assoc (entry_line e)).
  rewrite (@changed_paths_lines [] (entry_line e) (index_code e)
             ([worktree_code e; 0x20%N] ++ entry_path e) es);
    trivial.
  - cbn [map]. now rewrite (plain_line_path He).
  - constructor.
  - now apply plain_line_no_line_feed.
  - now apply plain_line_ends_solid.
Qed.

(** When the first line of the porcelain output has a space as the first
    character of its status code (a path changed in the working tree and
    not staged), the first entry of [changedFiles] is the path of that
    line without its first character; the other entries are the paths of
    the other lines. *)
Theorem status_paths_after_worktree_code (st st' : St World) o1 w1 e es s :
  spawn status_argv (world st) = (o1, w1) ->
  proc_stdout o1 = porcelain (e :: es) ->
  Forall plain (e :: es) ->
  index_code e = 0x20%N ->
  isWhiteSpace (worktree_code e) = false ->
  status spawn st = (Ok s, st') ->
  changedFiles s = tl (entry_path e) :: map entry_path es.
Proof.
  intros H1 Hout Hplain Hx Hy.
  destruct (spawn revlist_argv w1) as [o2 w2] eqn:H2.
  rewrite (status_cases spawn st H1 H2).
  destruct (negb (proc_exited o1 =? 0)%Z); [discriminate|].
  intros [= <- _]. cbn [changedFiles]. rewrite Hout.
  inversion Hplain as [|? ? He Hes]; subst.
  destruct He as (_ & _ & Hp & Np).
  change (porcelain (e :: es))
    with ((entry_line e ++ LF) ++ porcelain es).
  unfold entry_line. rewrite Hx.
  change (([0x20%N; worktree_code e; 0x20%N] ++ entry_path e) ++ LF)
    with ([0x20%N] ++ ([worktree_code e; 0x20%N] ++ entry_path e) ++ LF).
  rewrite <- !app_assoc.
  change ([0x20%N] ++ [worktree_code e; 0x20%N] ++ entry_path e ++ LF
            ++ porcelain es)
    with ([0x20%N] ++ ([worktree_code e; 0x20%N] ++ entry_path e) ++ LF
            ++ porcelain es).
  rewrite (@changed_paths_lines [0x20%N]
             ([worktree_code e; 0x20%N] ++ entry_path e)
             (worktree_code e) (0x20%N :: entry_path e) es);
    trivial.
  - f_equal. destruct (entry_path e) as [|c p'] eqn:Ep; [congruence|].
    cbn. inversion Hp; subst. now apply trim_solid.
  - repeat constructor.
  - cbn [app]. constructor; [intros E; rewrite E in Hy; discriminate Hy|].
    constructor; [discriminate|]. now apply solid_no_line_feed.
  - now exists [worktree_code e; 0x20%N], (entry_path e).
Qed.

End StatusFacts.

Lemma status_clean_iff_blank_witness :
  replay status_argv (world (start clean_tree)) = (exit0 [], tl clean_tree)
  /\ status replay (start clean_tree) =
       (Ok {| dirty := false;
              ahead := Num 0;
              behind := Num 0;
              changedFiles := [] |},
        after (start clean_tree) [] [status_argv; revlist_argv])
  /\ ((false = false <-> blank (proc_stdout (exit0 [])))
      /\ (blank (proc_stdout (exit0 [])) -> @nil jsstring = [])).
Proof.
  split; [reflexivity|]. split; [reflexivity|].
  exact (@status_clean_iff_blank Script replay (start clean_tree) _ _ _ _
           eq_refl eq_refl).
Defined.

Lemma status_strict_then_safe_witness :
  (replay status_argv (world (start not_a_repository))
     = (failed 128 [] (lit "fatal: not a git repository" ++ LF), [])
   /\ replay revlist_argv [] = (exit0 [], [])
   /\ status replay (start not_a_repository) =
        (Throw (GitError (tl status_argv) 128 []
                  (lit "fatal: not a git repository")),
         after (start not_a_repository) [] [status_argv]))
  /\ (replay status_argv (world (start staged_no_upstream))
        = (exit0 (lit "M  data/books.json" ++ LF
                  ++ lit "?? data/config.json" ++ LF),
           tl staged_no_upstream)
      /\ replay revlist_argv (tl staged_no_upstream)
         = (failed 128 []
              (lit "fatal: no upstream configured for branch 'main'" ++ LF),
            [])
      /\ exists s,
           status replay (start staged_no_upstream)
           = (Ok s, after (start staged_no_upstream) []
                      [status_argv; revlist_argv])).
Proof.
  split.
  - split; [reflexivity|]. split; [reflexivity|].
    refine (proj1 (@status_strict_then_safe Script replay
              (start not_a_repository) _ _ _ _ eq_refl eq_refl) _).
    discriminate.
  - split; [reflexivity|]. split; [reflexivity|].
    exact (proj2 (@status_strict_then_safe Script replay
             (start staged_no_upstream) _ _ _ _ eq_refl eq_refl) eq_refl).
Defined.

Lemma status_counts_on_short_output_witness :
  replay status_argv (world (start single_count))
    = (exit0 [], tl single_count)
  /\ replay revlist_argv (tl single_count) = (exit0 (lit "7" ++ LF), [])
  /\ proc_exited (exit0 (lit "7" ++ LF)) = 0%Z
  /\ exists s st',
       status replay (start single_count) = (Ok s, st')
       /\ ahead s = Num 7 /\ behind s = Num 0.
Proof.
  repeat (split; [reflexivity|]).
  exists {| dirty := false; ahead := Num 7; behind := Num 0;
            changedFiles := [] |},
         (after (start single_count) [] [status_argv; revlist_argv]).
  split; [reflexivity|].
  refine (proj2 (@status_counts_on_short_output Script replay
            (start single_count) _ _ _ _ _ _ eq_refl eq_refl eq_refl eq_refl)
          7%N [] LF eq_refl _ _ eq_refl); repeat constructor.
Defined.

Lemma status_paths_after_index_code_witness :
  replay status_argv (world (start staged_no_upstream))
    = (exit0 (lit "M  data/books.json" ++ LF
              ++ lit "?? data/config.json" ++ LF),
       tl staged_no_upstream)
  /\ lit "M  data/books.json" ++ LF ++ lit "?? data/config.json" ++ LF
     = porcelain
         [{| index_code := 0x4D; worktree_code := 0x20;
             entry_path := lit "data/books.json" |};
          {| index_code := 0x3F; worktree_code := 0x3F;
             entry_path := lit "data/config.json" |}]
  /\ exists s st',
       status replay (start staged_no_upstream) = (Ok s, st')
       /\ changedFiles s = [lit "data/books.json"; lit "data/config.json"].
Proof.
  split; [reflexivity|]. split; [reflexivity|].
  exists {| dirty := true; ahead := Num 0; behind := Num 0;
            changedFiles := [lit "data/books.json"; lit "data/config.json"] |},
         (after (start staged_no_upstream) [] [status_argv; revlist_argv]).
  split; [reflexivity|].
  refine (@status_paths_after_index_code Script replay
            (start staged_no_upstream) _ _ _
            {| index_code := 0x4D; worktree_code := 0x20;
               entry_path := lit "data/books.json" |}
            [{| index_code := 0x3F; worktree_code := 0x3F;
                entry_path := lit "data/config.json" |}]
            _ eq_refl eq_refl _ eq_refl eq_refl).
  repeat constructor; discriminate.
Defined.

Lemma status_paths_after_worktree_code_witness :
  replay status_argv (world (start one_modified))
    = (exit0 (lit " M data/books.json" ++ LF), tl one_modified)
  /\ lit " M data/books.json" ++ LF
     = porcelain
         [{| index_code := 0x20; worktree_code := 0x4D;
             entry_path := lit "data/books.json" |}]
  /\ exists s st',
       status replay (start one_modified) = (Ok s, st')
       /\ changedFiles s = [lit "ata/books.json"].
Proof.
  split; [reflexivity|]. split; [reflexivity|].
  exists {| dirty := true; ahead := Num 2; behind := Num 0;
            changedFiles := [lit "ata/books.json"] |},
         (after (start one_modified) [] [status_argv; revlist_argv]).
  split; [reflexivity|].
  refine (@status_paths_after_worktree_code Script replay
            (start one_modified) _ _ _
            {| index_code := 0x20; worktree_code := 0x4D;
               entry_path := lit "data/books.json" |}
            [] _ eq_refl eq_refl _ eq_refl eq_refl eq_refl).
  repeat constructor; discriminate.
Defined.

(* ------------------------------------------------------------------------- *)
(** ** [pull] and [push]: the shape of the results *)

Section ResultFacts.

Variable World : Type.
Variable spawn : list jsstring -> World -> ProcOut * World.

(** A [PullResult] that [pull] returns is either a success without error,
    after [git fetch] and [git pull --ff-only], or a failure whose error
    starts with "git fetch failed: ", after [git fetch] alone, or with
    "git pull --ff-only failed: ", after both commands. *)
Theorem pull_result_shape (st st' : St World) r :
  pull spawn st = (Ok r, st') ->
  (pull_success r = true
   /\ pull_error r = None
   /\ spawned st' = spawned st ++ [fetch_argv; pull_argv])
  \/ (pull_success r = false
      /\ exists text,
           (pull_error r = Some (lit "git fetch failed: " ++ text)
            /\ spawned st' = spawned st ++ [fetch_argv])
           \/ (pull_error r = Some (lit "git pull --ff-only failed: " ++ text)
               /\ spawned st' = spawned st ++ [fetch_argv; pull_argv])).
Proof.
  destruct (spawn fetch_argv (world st)) as [o1 w1] eqn:H1.
  destruct (spawn pull_argv w1) as [o2 w2] eqn:H2.
  rewrite (pull_cases spawn st H1 H2).
  destruct (negb (proc_exited o1 =? 0)%Z).
  { intros [= <- <-]. right. split; [reflexivity|].
    exists (diagnostic o1). left. now split. }
  destruct (negb (proc_exited o2 =? 0)%Z).
  { intros [= <- <-]. right. split; [reflexivity|].
    exists (diagnostic o2). right. now split. }
  intros [= <- <-]. left. now repeat split.
Qed.

(** A [PushResult] that [push] returns is either a success with the short
    hash (a text without white space around it) and no error, or a failure
    without hash whose error starts with "git commit failed: " or with
    "git push failed: ". *)
Theorem push_result_shape (st st' : St World) msg r :
  push spawn msg st = (Ok r, st') ->
  (push_success r = true
   /\ (exists sha, push_sha r = Some sha /\ tight sha)
   /\ push_error r = None)
  \/ (push_success r = false
      /\ push_sha r = None
      /\ exists text,
           push_error r = Some (lit "git commit failed: " ++ text)
           \/ push_error r = Some (lit "git push failed: " ++ text)).
Proof.
  destruct (spawn add_argv (world st)) as [o1 w1] eqn:H1.
  destruct (spawn (commit_argv msg) w1) as [o2 w2] eqn:H2.
  destruct (spawn push_argv w2) as [o3 w3] eqn:H3.
  destruct (spawn revparse_argv w3) as [o4 w4] eqn:H4.
  rewrite (push_cases spawn st msg H1 H2 H3 H4).
  destruct (negb (proc_exited o1 =? 0)%Z); [discriminate|].
  destruct (commit_refused o2).
  { intros [= <- _]. right. cbn. repeat split. eexists. left. reflexivity. }
  destruct (negb (proc_exited o3 =? 0)%Z).
  { intros [= <- _]. right. cbn. repeat split. eexists. right. reflexivity. }
  destruct (negb (proc_exited o4 =? 0)%Z); [discriminate|].
  intros [= <- _]. left. cbn. split; [reflexivity|]. split; [|reflexivity].
  eexists. split; [reflexivity|apply TrimFacts.trim_tight].
Qed.

End ResultFacts.

Lemma push_result_shape_witness :
  push replay (lit "Update catalogue") (start clean_but_stale) =
    (Ok {| push_success := false;
           push_sha := None;
           push_error :=
             Some (lit "git push failed: ! [rejected] main -> main (stale info)") |},
     after (start clean_but_stale) []
       [add_argv; commit_argv (lit "Update catalogue"); push_argv])
  /\ ((false = true
       /\ (exists sha, @None jsstring = Some sha /\ tight sha)
       /\ Some (lit "git push failed: ! [rejected] main -> main (stale info)")
          = None)
      \/ (false = false
          /\ @None jsstring = None
          /\ exists text,
               Some (lit "git push failed: ! [rejected] main -> main (stale info)")
               = Some (lit "git commit failed: " ++ text)
               \/ Some (lit "git push failed: ! [rejected] main -> main (stale info)")
                  = Some (lit "git push failed: " ++ text))).
Proof.
  split; [reflexivity|].
  exact (@push_result_shape Script replay (start clean_but_stale) _
           (lit "Update catalogue") _ eq_refl).
Defined.

Lemma pull_result_shape_witness :
  pull replay (start offline) =
    (Ok {| pull_success := false;
           pull_error :=
             Some (lit "git fetch failed: fatal: unable to access the remote") |},
     after (start offline) [] [fetch_argv])
  /\ ((false = true
       /\ Some (lit "git fetch failed: fatal: unable to access the remote")
          = None
       /\ spawned (after (start offline) [] [fetch_argv])
          = spawned (start offline) ++ [fetch_argv; pull_argv])
      \/ (false = false
          /\ exists text,
               (Some (lit "git fetch failed: fatal: unable to access the remote")
                = Some (lit "git fetch failed: " ++ text)
                /\ spawned (after (start offline) [] [fetch_argv])
                   = spawned (start offline) ++ [fetch_argv])
               \/ (Some (lit "git fetch failed: fatal: unable to access the remote")
                   = Some (lit "git pull --ff-only failed: " ++ text)
                   /\ spawned (after (start offline) [] [fetch_argv])
                      = spawned (start offline) ++ [fetch_argv; pull_argv]))).
Proof.
  split; [reflexivity|].
  exact (@pull_result_shape Script replay (start offline) _ _ eq_refl).
Defined.

(* ------------------------------------------------------------------------- *)
(** ** [handleSync]: the three routes *)

Section RouteFacts.

Variable World : Type.
Variable spawn : list jsstring -> World -> ProcOut * World.

Import StringFacts TrimFacts.

Lemma tight_default_message : tight (lit "Update catalogue").
Proof.
  change (lit "Update catalogue") with (trim (lit "Update catalogue")).
  apply trim_tight.
Qed.

(** The commit message the push route computes from a string. *)
Lemma message_of_string s :
  or_else (trim s) (lit "Update catalogue") <> []
  /\ tight (or_else (trim s) (lit "Update catalogue")).
Proof.
  unfold or_else. destruct (trim s) as [|c r] eqn:T; cbn [truthy].
  - split; [discriminate|apply tight_default_message].
  - split; [discriminate|]. rewrite <- T. apply trim_tight.
Qed.

Lemma handleSync_status_codes (st st' : St World) req resp :
  handleSync spawn req st = (Ok resp, st') ->
  In (resp_status resp) [200%Z; 404%Z; 409%Z].
Proof.
  unfold handleSync.
  destruct (eqb (method req) (lit "GET")
            && eqb (pathname req) (lit "/api/sync/status")).
  { unfold bind, ret. destruct (status spawn st) as [[s|e] st1];
      [|discriminate].
    intros [= <- _]. cbn. auto. }
  destruct (eqb (method req) (lit "POST")
            && eqb (pathname req) (lit "/api/sync/pull")).
  { unfold bind, ret. destruct (pull spawn st) as [[r|e] st1];
      [|discriminate].
    intros [= <- _]. cbn. destruct (pull_success r); auto. }
  destruct (eqb (method req) (lit "POST")
            && eqb (pathname req) (lit "/api/sync/push")).
  2:{ intros [= <- _]. cbn. auto. }
  unfold bind, req_json, get_message, opt_trim, ret, throw.
  destruct (json_body req) as [[| | | | |ms]|]; try discriminate;
    try (destruct (member (lit "message") ms) as [[| | |s| |]|]);
    try discriminate;
    match goal with
    | |- context [push spawn ?m st] =>
        destruct (push spawn m st) as [[r|e] st1]
    end;
    try discriminate;
    intros [= <- _]; cbn; destruct (push_success r); auto.
Qed.

(** [GET /api/sync/status] answers 200 with the [SyncStatus] when
    [git status --porcelain] succeeds, whatever the commit count does; when
    it fails there is no response: the [GitError] is thrown to the caller
    and nothing else has been spawned. *)
Theorem handleSync_status_route (st : St World) req o1 w1 :
  method req = lit "GET" ->
  pathname req = lit "/api/sync/status" ->
  spawn status_argv (world st) = (o1, w1) ->
  (proc_exited o1 = 0%Z ->
   exists s w2,
     status spawn st = (Ok s, after st w2 [status_argv; revlist_argv])
     /\ handleSync spawn req st =
          (Ok {| resp_body := OfStatus s; resp_status := 200 |},
           after st w2 [status_argv; revlist_argv]))
  /\ (proc_exited o1 <> 0%Z ->
      handleSync spawn req st =
        (Throw (GitError (tl status_argv) (proc_exited o1)
                  (trim (proc_stdout o1)) (trim (proc_stderr o1))),
         after st w1 [status_argv])).
Proof.
  intros Hm Hp H1. unfold handleSync. rewrite Hm, Hp.
  assert (R : eqb (lit "GET") (lit "GET")
              && eqb (lit "/api/sync/status") (lit "/api/sync/status")
              = true) by reflexivity.
  rewrite R. unfold bind.
  destruct (spawn revlist_argv w1) as [o2 w2] eqn:H2.
  rewrite (status_cases spawn st H1 H2). split.
  - intros E. rewrite E. cbn [Z.eqb negb]. now eexists; eexists.
  - intros E. apply Z.eqb_neq in E. now rewrite E.
Qed.

(** [POST /api/sync/pull], whatever the body of the request (it is not
    read), given the outcomes of [git fetch] and [git pull --ff-only]:
    after a failed fetch the response is 409 with the failure
    "git fetch failed: ..." and the pull is not spawned; after a failed
    pull it is 409 with "git pull --ff-only failed: ..."; otherwise it is
    200 with [{success: true}]. *)
Theorem handleSync_pull_route (st : St World) req o1 w1 o2 w2 :
  method req = lit "POST" ->
  pathname req = lit "/api/sync/pull" ->
  spawn fetch_argv (world st) = (o1, w1) ->
  spawn pull_argv w1 = (o2, w2) ->
  (proc_exited o1 <> 0%Z ->
   handleSync spawn req st =
     (Ok {| resp_body :=
              OfPull {| pull_success := false;
                        pull_error :=
                          Some (lit "git fetch failed: " ++ diagnostic o1) |};
            resp_status := 409 |},
      after st w1 [fetch_argv]))
  /\ (proc_exited o1 = 0%Z -> proc_exited o2 <> 0%Z ->
      handleSync spawn req st =
        (Ok {| resp_body :=
                 OfPull {| pull_success := false;
                           pull_error :=
                             Some (lit "git pull --ff-only failed: "
                                     ++ diagnostic o2) |};
               resp_status := 409 |},
         after st w2 [fetch_argv; pull_argv]))
  /\ (proc_exited o1 = 0%Z -> proc_exited o2 = 0%Z ->
      handleSync spawn req st =
        (Ok {| resp_body :=
                 OfPull {| pull_success := true; pull_error := None |};
               resp_status := 200 |},
         after st w2 [fetch_argv; pull_argv])).
Proof.
  intros Hm Hp H1 H2. unfold handleSync. rewrite Hm, Hp.
  assert (R1 : eqb (lit "POST") (lit "GET") = false) by reflexivity.
  assert (R2 : eqb (lit "POST") (lit "POST")
               && eqb (lit "/api/sync/pull") (lit "/api/sync/pull")
               = true) by reflexivity.
  rewrite R1, R2. cbn [andb]. unfold bind.
  rewrite (pull_cases spawn st H1 H2).
  repeat split.
  - intros E. apply Z.eqb_neq in E. now rewrite E.
  - intros E1 E2. apply Z.eqb_neq in E2. now rewrite E1, E2.
  - intros E1 E2. now rewrite E1, E2.
Qed.

(** [POST /api/sync/push] throws before any process is spawned when the
    body is not JSON ([SyntaxError]), when it is [null] ([TypeError]), or
    when it is an object whose [message] is neither a string nor [null]
    ([TypeError]). *)
Theorem handleSync_push_rejects_body (st : St World) req :
  method req = lit "POST" ->
  pathname req = lit "/api/sync/push" ->
  (json_body req = None ->
   handleSync spawn req st = (Throw SyntaxError, st))
  /\ (json_body req = Some JNull ->
      handleSync spawn req st = (Throw TypeError, st))
  /\ (forall ms v,
        json_body req = Some (JObj ms) ->
        member (lit "message") ms = Some v ->
        v <> JNull -> (forall s, v <> JStr s) ->
        handleSync spawn req st = (Throw TypeError, st)).
Proof.
  intros Hm Hp. rewrite (@handleSync_push_route World spawn st req Hm Hp).
  unfold bind, req_json, get_message, opt_trim, ret, throw.
  split; [|split].
  - now intros ->.
  - now intros ->.
  - intros ms v -> -> Hn Hs.
    destruct v as [| | |s| |]; try reflexivity; [congruence|].
    now destruct (Hs s).
Qed.

(** On [POST /api/sync/push] either the request is rejected with a
    [SyntaxError] or a [TypeError] and nothing has changed, or [push] is
    called with a commit message that is not empty and has no white space
    at its start or end; the response is then built from what [push]
    returns, and what [push] throws is thrown on. *)
Theorem handleSync_push_message_is_tight (st : St World) req :
  method req = lit "POST" ->
  pathname req = lit "/api/sync/push" ->
  (exists e, (e = SyntaxError \/ e = TypeError)
             /\ handleSync spawn req st = (Throw e, st))
  \/ (exists m,
        m <> [] /\ tight m
        /\ handleSync spawn req st =
             match push spawn m st with
             | (Ok r, st') =>
                 (Ok {| resp_body := OfPush r;
                        resp_status :=
                          if push_success r then 200%Z else 409%Z |}, st')
             | (Throw e, st') => (Throw e, st')
             end).
Proof.
  intros Hm Hp. rewrite (@handleSync_push_route World spawn st req Hm Hp).
  unfold bind, req_json, get_message, opt_trim, ret, throw.
  destruct (json_body req) as [[| | | | |ms]|];
    try (left; eexists; split; [|reflexivity]; auto; fail);
    try (right; exists (lit "Update catalogue");
         split; [discriminate|]; split; [apply tight_default_message|];
         now destruct (push spawn (lit "Update catalogue") st) as [[r|e] st1]).
  destruct (member (lit "message") ms) as [[| | |s| |]|];
    try (left; eexists; split; [|reflexivity]; auto; fail);
    try (right; exists (lit "Update catalogue");
         split; [discriminate|]; split; [apply tight_default_message|];
         now destruct (push spawn (lit "Update catalogue") st) as [[r|e] st1]).
  right. exists (or_else (trim s) (lit "Update catalogue")).
  destruct (message_of_string s) as [N T]. split; [exact N|].
  split; [exact T|].
  now destruct (push spawn _ st) as [[r|e] st1].
Qed.

End RouteFacts.

Lemma handleSync_status_route_witness :
  method status_request = lit "GET"
  /\ pathname status_request = lit "/api/sync/status"
  /\ replay status_argv (world (start not_a_repository))
     = (failed 128 [] (lit "fatal: not a git repository" ++ LF), [])
  /\ handleSync replay status_request (start not_a_repository) =
       (Throw (GitError (tl status_argv) 128 []
                 (lit "fatal: not a git repository")),
        after (start not_a_repository) [] [status_argv]).
Proof.
  repeat (split; [reflexivity|]).
  refine (proj2 (@handleSync_status_route Script replay
            (start not_a_repository) status_request _ _
            eq_refl eq_refl eq_refl) _).
  discriminate.
Defined.

Lemma handleSync_pull_route_witness :
  method pull_request = lit "POST"
  /\ pathname pull_request = lit "/api/sync/pull"
  /\ replay fetch_argv (world (start diverged)) = (exit0 [], tl diverged)
  /\ replay pull_argv (tl diverged)
     = (failed 128 []
          (lit "fatal: Not possible to fast-forward, aborting." ++ LF), [])
  /\ handleSync replay pull_request (start diverged) =
       (Ok {| resp_body :=
                OfPull {| pull_success := false;
                          pull_error :=
                            Some (lit "git pull --ff-only failed: fatal: Not possible to fast-forward, aborting.") |};
              resp_status := 409 |},
        after (start diverged) [] [fetch_argv; pull_argv]).
Proof.
  repeat (split; [reflexivity|]).
  refine (proj1 (proj2 (@handleSync_pull_route Script replay (start diverged)
            pull_request _ _ _ _ eq_refl eq_refl eq_refl eq_refl))
          eq_refl _).
  discriminate.
Defined.

Lemma handleSync_push_rejects_body_witness :
  method (push_request numeric_message) = lit "POST"
  /\ pathname (push_request numeric_message) = lit "/api/sync/push"
  /\ json_body (push_request numeric_message)
     = Some (JObj [(lit "message", JNum (lit "42"))])
  /\ member (lit "message") [(lit "message", JNum (lit "42"))]
     = Some (JNum (lit "42"))
  /\ handleSync replay (push_request numeric_message) (start edited)
     = (Throw TypeError, start edited).
Proof.
  repeat (split; [reflexivity|]).
  refine (proj2 (proj2 (@handleSync_push_rejects_body Script replay
            (start edited) (push_request numeric_message) eq_refl eq_refl))
          _ (JNum (lit "42")) eq_refl eq_refl _ _); discriminate.
Defined.

Lemma handleSync_push_message_is_tight_witness :
  method (push_request padded_message) = lit "POST"
  /\ pathname (push_request padded_message) = lit "/api/sync/push"
  /\ ((exists e, (e = SyntaxError \/ e = TypeError)
                 /\ handleSync replay (push_request padded_message)
                      (start edited)
                    = (Throw e, start edited))
      \/ (exists m,
            m <> [] /\ tight m
            /\ handleSync replay (push_request padded_message) (start edited)
               = match push replay m (start edited) with
                 | (Ok r, st') =>
                     (Ok {| resp_body := OfPush r;
                            resp_status :=
                              if push_success r then 200%Z else 409%Z |},
                      st')
                 | (Throw e, st') => (Throw e, st')
                 end)).
Proof.
  repeat (split; [reflexivity|]).
  exact (@handleSync_push_message_is_tight Script replay (start edited)
           (push_request padded_message) eq_refl eq_refl).
Defined.

(* ------------------------------------------------------------------------- *)
(** ** The server *)

Section ServerFacts.

Variable World : Type.
Variable spawn : list jsstring -> World -> ProcOut * World.
Variable engine_message : exn -> jsstring.
Variable handleBooks : Request -> World -> (Reply + thrown) * World.
Variable handleConfig : Request -> World -> (Reply + thrown) * World.
Variable staticHandler : Request -> World -> (Reply + thrown) * World.

(** The dispatcher with the handlers of the section. *)
Local Abbreviation serve :=
  (fetch spawn engine_message handleBooks handleConfig staticHandler).

Lemma startsWith_app p s :
  startsWith p s = true -> exists rest, s = p ++ rest.
Proof.
  revert s. induction p as [|x p IH]; intros s H; [now exists s|].
  destruct s as [|y s]; [discriminate|]. cbn in H.
  apply andb_prop in H as [Hx Hp]. apply N.eqb_eq in Hx as ->.
  destruct (IH s Hp) as (rest & ->). now exists rest.
Qed.

(** A path that starts with "/api/sync" is served by [handleSync]. *)
Lemma fetch_sync_route req (sv : Server World) :
  startsWith (lit "/api/sync") (pathname req) = true ->
  serve req sv = catch_apiError (sync spawn engine_message req sv).
Proof.
  intros H. unfold fetch. rewrite H.
  destruct (startsWith_app _ _ H) as (rest & ->).
  assert (R1 : eqb (lit "/api/sync" ++ rest) (lit "/api/status") = false)
    by reflexivity.
  assert (R2 : eqb (lit "/api/sync" ++ rest) (lit "/api/quit") = false)
    by reflexivity.
  assert (R3 : startsWith (lit "/api/books") (lit "/api/sync" ++ rest) = false)
    by reflexivity.
  assert (R4 : eqb (lit "/api/sync" ++ rest) (lit "/api/config") = false)
    by reflexivity.
  now rewrite R1, R2, R3, R4.
Qed.


(** A request whose path starts with "/api/sync" is handed to
    [handleSync]. When [handleSync] returns a response, the reply is that
    response as it is, with status 200, 404 or 409; when [handleSync]
    throws, the reply is 500 with the message of the exception as
    [error], and nothing is thrown on. Either way the recorded startup
    status and the timers are left as they were. *)
Theorem fetch_sync_replies req (sv : Server World) :
  startsWith (lit "/api/sync") (pathname req) = true ->
  (forall resp st',
     handleSync spawn req (repo sv) = (Ok resp, st') ->
     serve req sv =
       (inl {| reply_body := SyncContent (resp_body resp);
               reply_status := resp_status resp |},
        {| repo := st';
           startupStatus := startupStatus sv;
           timers := timers sv |})
     /\ In (resp_status resp) [200%Z; 404%Z; 409%Z])
  /\ (forall e st',
        handleSync spawn req (repo sv) = (Throw e, st') ->
        serve req sv =
          (inl {| reply_body := ErrorContent (message_of engine_message e);
                  reply_status := 500 |},
           {| repo := st';
              startupStatus := startupStatus sv;
              timers := timers sv |})).
Proof.
  intros H. rewrite (fetch_sync_route req sv H). unfold sync. split.
  - intros resp st' E. rewrite E. split; [reflexivity|].
    exact (handleSync_status_codes spawn (repo sv) req E).
  - intros e st' E. now rewrite E.
Qed.

(** When [git add] fails on [POST /api/sync/push], the server answers 500
    with the message of the [GitError]: "git add data/books.json
    data/config.json exited ", the exit code in decimal, ": " and the
    trimmed standard error of the command (its trimmed standard output if
    the former is empty); no other process has been spawned. *)
Theorem fetch_push_staging_failure req (sv : Server World) ms o1 w1 :
  method req = lit "POST" ->
  pathname req = lit "/api/sync/push" ->
  json_body req = Some (JObj ms) ->
  (member (lit "message") ms = None
   \/ exists s, member (lit "message") ms = Some (JStr s)) ->
  spawn add_argv (world (repo sv)) = (o1, w1) ->
  proc_exited o1 <> 0%Z ->
  serve req sv =
    (inl {| reply_body :=
              ErrorContent
                (lit "git add data/books.json data/config.json exited "
                   ++ number_to_string (proc_exited o1) ++ lit ": "
                   ++ diagnostic o1);
            reply_status := 500 |},
     {| repo := after (repo sv) w1 [add_argv];
        startupStatus := startupStatus sv;
        timers := timers sv |}).
Proof.
  intros Hm Hp Hb Hmsg H1 E1.
  rewrite fetch_sync_route by now rewrite Hp.
  unfold sync.
  assert (P : forall m,
            push spawn m (repo sv) =
              (Throw (GitError (tl add_argv) (proc_exited o1)
                        (trim (proc_stdout o1)) (trim (proc_stderr o1))),
               after (repo sv) w1 [add_argv])).
  { intros m.
    destruct (spawn (commit_argv m) w1) as [o2 w2] eqn:H2.
    destruct (spawn push_argv w2) as [o3 w3] eqn:H3.
    destruct (spawn revparse_argv w3) as [o4 w4] eqn:H4.
    rewrite (push_cases spawn (repo sv) m H1 H2 H3 H4).
    apply Z.eqb_neq in E1. now rewrite E1. }
  destruct Hmsg as [Habs | (s & Hs)].
  - rewrite (@handleSync_push_absent World spawn (repo sv) req ms Hm Hp Hb Habs).
    now rewrite P.
  - rewrite (@handleSync_push_string World spawn (repo sv) req ms s
               Hm Hp Hb Hs).
    now rewrite P.
Qed.

End ServerFacts.


Lemma fetch_sync_replies_witness :
  (startsWith (lit "/api/sync") (pathname delete_request) = true
   /\ handleSync replay delete_request (repo (boot (start edited))) =
        (Ok {| resp_body := OfText (lit "Not found"); resp_status := 404 |},
         start edited)
   /\ fetch replay some_engine_message idle_handler idle_handler idle_handler
        delete_request (boot (start edited)) =
        (inl {| reply_body := SyncContent (OfText (lit "Not found"));
                reply_status := 404 |},
         boot (start edited)))
  /\ (startsWith (lit "/api/sync") (pathname (push_request no_message)) = true
      /\ handleSync replay (push_request no_message)
           (repo (boot (start broken_checkout))) =
           (Throw (GitError (tl add_argv) 128 []
                     (lit "fatal: pathspec 'data/books.json' did not match any files")),
            after (start broken_checkout) [] [add_argv])
      /\ fetch replay some_engine_message idle_handler idle_handler
           idle_handler (push_request no_message)
           (boot (start broken_checkout)) =
           (inl {| reply_body :=
                     ErrorContent
                       (lit "git add data/books.json data/config.json exited 128: fatal: pathspec 'data/books.json' did not match any files");
                   reply_status := 500 |},
            {| repo := after (start broken_checkout) [] [add_argv];
               startupStatus := startupStatus (boot (start broken_checkout));
               timers := [] |})).
Proof.
  split.
  - split; [reflexivity|]. split; [reflexivity|].
    exact (proj1 (proj1 (@fetch_sync_replies Script replay
                    some_engine_message idle_handler idle_handler idle_handler
                    delete_request (boot (start edited)) eq_refl)
                  {| resp_body := OfText (lit "Not found");
                     resp_status := 404 |}
                  (start edited) eq_refl)).
  - split; [reflexivity|]. split; [reflexivity|].
    exact (proj2 (@fetch_sync_replies Script replay
                    some_engine_message idle_handler idle_handler idle_handler
                    (push_request no_message) (boot (start broken_checkout))
                    eq_refl)
             (GitError (tl add_argv) 128 []
                (lit "fatal: pathspec 'data/books.json' did not match any files"))
             (after (start broken_checkout) [] [add_argv]) eq_refl).
Defined.

Lemma fetch_push_staging_failure_witness :
  method (push_request no_message) = lit "POST"
  /\ pathname (push_request no_message) = lit "/api/sync/push"
  /\ json_body (push_request no_message) = Some (JObj [])
  /\ member (lit "message") [] = None
  /\ replay add_argv (world (repo (boot (start broken_checkout))))
     = (failed 128 []
          (lit "fatal: pathspec 'data/books.json' did not match any files"
             ++ LF), [])
  /\ fetch replay some_engine_message idle_handler idle_handler idle_handler
       (push_request no_message) (boot (start broken_checkout)) =
       (inl {| reply_body :=
                 ErrorContent
                   (lit "git add data/books.json data/config.json exited 128: fatal: pathspec 'data/books.json' did not match any files");
               reply_status := 500 |},
        {| repo := after (start broken_checkout) [] [add_argv];
           startupStatus := startupStatus (boot (start broken_checkout));
           timers := [] |}).
Proof.
  repeat (split; [reflexivity|]).
  refine (@fetch_push_staging_failure Script replay some_engine_message
            idle_handler idle_handler idle_handler
            (push_request no_message) (boot (start broken_checkout))
            [] _ _ eq_refl eq_refl eq_refl (or_introl eq_refl) eq_refl _).
  discriminate.
Defined.
